(** * gitlab-client: the request executor and the paginator of [src/index.js]

    A shallow embedding of [GitLabAPI]'s constructor, [_request] and
    [_paginatedRequest], and of the error classes they throw, followed by the
    properties of the specification that concern them.

    Conventions of the embedding.
    - JavaScript numbers that occur here (status codes, page numbers, array
      lengths, parsed header counts) are integers, modelled in [Z]; the only
      non-integer that the code can produce, the [NaN] of [parseInt], is a
      constructor of [jsnum].  The model is that of the code for the
      integers a JavaScript number holds exactly, between [-(2^53)] and
      [2^53].
    - A JavaScript string is a [string]: a sequence of one-byte code units.
    - A plain object is a property list in insertion order with unique keys
      ([set_prop] keeps a key's position, as assignment does).
    - [fetch] is the imported [node-fetch]; what it resolves or rejects to is
      an input of the model ([settled Response]), and the requests passed to
      it are an output.  [console.error] writes are not modelled: the two
      [catch] blocks log and rethrow, so they are the identity on errors.
    - Line numbers are those of [src/index.js]. *)

From Stdlib Require Import ZArith Ascii String List Bool Lia.
From stdpp Require Import base option list strings pretty.

Set Warnings "-register-all".

Open Scope string_scope.
Open Scope Z_scope.

(** ** JavaScript values and objects *)

Module JS.

(** The values that travel as request payloads, parsed JSON bodies and
    properties of option bags. *)
Inductive value : Type :=
  | Null
  | Bool (b : bool)
  | Num (n : Z)
  | Str (s : string)
  | Arr (items : list value)
  | Obj (props : list (string * value)).

(** A plain object: own enumerable properties in insertion order. *)
Definition object : Type := list (string * value).

(** ToBoolean, as used by [if (x)], [x || y] and [x && y]. *)
Definition truthy (v : value) : bool :=
  match v with
  | Null => false
  | Bool b => b
  | Num n => negb (n =? 0)
  | Str s => negb (String.eqb s "")
  | Arr _ => true
  | Obj _ => true
  end.

(** [Array.isArray]. *)
Definition isArray (v : value) : bool :=
  match v with
  | Arr _ => true
  | _ => false
  end.

(** [o[k]]; [None] is [undefined]. *)
Fixpoint get_prop (k : string) (o : object) : option value :=
  match o with
  | [] => None
  | (k', v) :: o' => if String.eqb k k' then Some v else get_prop k o'
  end.

(** [o[k] = v]: an existing key keeps its place, a new key goes last. *)
Fixpoint set_prop (k : string) (v : value) (o : object) : object :=
  match o with
  | [] => [(k, v)]
  | (k', v') :: o' =>
      if String.eqb k k' then (k, v) :: o' else (k', v') :: set_prop k v o'
  end.

(** [{ ...dst, ...src }]: the properties of [src] are assigned onto [dst]
    one after the other. *)
Definition spread (dst src : object) : object :=
  fold_left (fun o kv => set_prop (fst kv) (snd kv) o) src dst.

(** [s.includes(sub)]. *)
Fixpoint includes (sub s : string) : bool :=
  String.prefix sub s ||
  match s with
  | EmptyString => false
  | String _ s' => includes sub s'
  end.

(** [s.startsWith(p)]. *)
Definition startsWith (p s : string) : bool := String.prefix p s.

(** [n.toString()] of an integer. *)
Definition toString (n : Z) : string := pretty n.

(** Numbers as [parseInt] returns them. *)
Inductive jsnum : Type :=
  | NaN
  | Int (n : Z).

(** StrWhiteSpaceChar among one-byte code units: TAB, LF, VT, FF, CR, SP and
    NBSP. *)
Definition is_white_space (c : ascii) : bool :=
  let n := Z.of_N (N_of_ascii c) in
  ((9 <=? n) && (n <=? 13)) || (n =? 32) || (n =? 160).

Definition digit_value (c : ascii) : option Z :=
  let n := Z.of_N (N_of_ascii c) in
  if (48 <=? n) && (n <=? 57) then Some (n - 48) else None.

Fixpoint trim_start (s : string) : string :=
  match s with
  | String c s' => if is_white_space c then trim_start s' else s
  | EmptyString => s
  end.

(** The longest run of decimal digits at the head of [s], read in base ten
    onto [acc]; [seen] tells whether any digit was read. *)
Fixpoint read_digits (acc : Z) (seen : bool) (s : string) : Z * bool :=
  match s with
  | String c s' =>
      match digit_value c with
      | Some d => read_digits (10 * acc + d) true s'
      | None => (acc, seen)
      end
  | EmptyString => (acc, seen)
  end.

(** [parseInt(s, 10)]: leading white space is skipped, one sign is accepted,
    the digits that follow are read and whatever comes after them is ignored;
    without a digit the result is [NaN]. *)
Definition parseInt10 (s : string) : jsnum :=
  let t := trim_start s in
  let '(sign, t) :=
    match t with
    | String "-" t' => (-1, t')
    | String "+" t' => (1, t')
    | _ => (1, t)
    end in
  match read_digits 0 false t with
  | (n, true) => Int (sign * n)
  | (_, false) => NaN
  end.

(** ToBoolean of a [number | null] variable such as [totalPages]. *)
Definition truthy_num (t : option jsnum) : bool :=
  match t with
  | Some (Int n) => negb (n =? 0)
  | Some NaN => false
  | None => false
  end.

(** [p >= t] for a number [t]: every comparison with [NaN] is false. *)
Definition ge_num (p : Z) (t : option jsnum) : bool :=
  match t with
  | Some (Int n) => n <=? p
  | Some NaN => false
  | None => 0 <=? p
  end.

(** *** JSON.stringify *)

Definition hex_digit (n : Z) : string :=
  String (ascii_of_N (Z.to_N (if n <? 10 then 48 + n else 87 + n))) "".

(** QuoteJSONString: the escapes of one code unit. *)
Definition quote_char (c : ascii) : string :=
  let n := Z.of_N (N_of_ascii c) in
  if n =? 34 then "\" ++ String c ""
  else if n =? 92 then "\\"
  else if n =? 8 then "\b"
  else if n =? 9 then "\t"
  else if n =? 10 then "\n"
  else if n =? 12 then "\f"
  else if n =? 13 then "\r"
  else if n <? 32 then "\u00" ++ hex_digit (n / 16) ++ hex_digit (n mod 16)
  else String c "".

Fixpoint quote_chars (s : string) : string :=
  match s with
  | EmptyString => ""
  | String c s' => quote_char c ++ quote_chars s'
  end.

Definition quote (s : string) : string :=
  String (ascii_of_N 34) (quote_chars s ++ String (ascii_of_N 34) "").

Definition join (sep : string) (l : list string) : string :=
  String.concat sep l.

Fixpoint stringify (v : value) : string :=
  match v with
  | Null => "null"
  | Bool true => "true"
  | Bool false => "false"
  | Num n => toString n
  | Str s => quote s
  | Arr items =>
      "[" ++ join "," ((fix each l :=
                          match l with
                          | [] => []
                          | x :: l' => stringify x :: each l'
                          end) items) ++ "]"
  | Obj props =>
      "{" ++ join "," ((fix each l :=
                          match l with
                          | [] => []
                          | (k, x) :: l' =>
                              (quote k ++ ":" ++ stringify x) :: each l'
                          end) props) ++ "}"
  end.

(** *** URLSearchParams *)

(** The list of name-value pairs of a [URLSearchParams] object. *)
Definition URLSearchParams : Type := list (string * string).

(** [params.set(name, value)]: the first pair called [name] takes the value
    and the later ones are removed; without such a pair one is appended. *)
Fixpoint params_set (name v : string) (ps : URLSearchParams) : URLSearchParams :=
  match ps with
  | [] => [(name, v)]
  | (k, x) :: ps' =>
      if String.eqb k name
      then (k, v) :: List.filter (fun kv => negb (String.eqb (fst kv) name)) ps'
      else (k, x) :: params_set name v ps'
  end.

(** The application/x-www-form-urlencoded byte serializer: letters, digits
    and [* - . _] stay, a space becomes [+], any other byte is written as a
    percent sign and two upper-case hexadecimal digits. *)
Definition upper_hex_digit (n : Z) : string :=
  String (ascii_of_N (Z.to_N (if n <? 10 then 48 + n else 55 + n))) "".

Definition form_encode_byte (c : ascii) : string :=
  let n := Z.of_N (N_of_ascii c) in
  if ((48 <=? n) && (n <=? 57)) || ((65 <=? n) && (n <=? 90))
     || ((97 <=? n) && (n <=? 122))
     || (n =? 42) || (n =? 45) || (n =? 46) || (n =? 95)
  then String c ""
  else if n =? 32 then "+"
  else "%" ++ upper_hex_digit (n / 16) ++ upper_hex_digit (n mod 16).

Fixpoint form_encode (s : string) : string :=
  match s with
  | EmptyString => ""
  | String c s' => form_encode_byte c ++ form_encode s'
  end.

(** [params.toString()]. *)
Definition params_toString (ps : URLSearchParams) : string :=
  join "&" (map (fun kv => form_encode (fst kv) ++ "=" ++ form_encode (snd kv)) ps).

End JS.

Import JS.

(** ** Errors *)

(** The four classes of [GitLabAPIError.js] and its three subclasses. *)
Inductive ErrorClass : Type :=
  | GitLabAPIError
  | GitLabNotFoundError
  | GitLabAuthenticationError
  | GitLabRateLimitError.

(** An instance: the class it was built by and the fields the constructors
    assign. *)
Record GitLabError : Type := mkGitLabError {
  class : ErrorClass;
  name : string;
  message : string;
  statusCode : Z;
  responseBody : string;
  err_url : string
}.

(** [new GitLabAPIError(message, statusCode, responseBody, url)]. *)
Definition new_GitLabAPIError (message : string) (statusCode : Z)
    (responseBody url : string) : GitLabError :=
  {| class := GitLabAPIError;
     name := "GitLabAPIError";
     message := message;
     statusCode := statusCode;
     responseBody := responseBody;
     err_url := url |}.

(** [this.name = n] in the constructor of subclass [c]. *)
Definition rename (c : ErrorClass) (n : string) (this : GitLabError)
    : GitLabError :=
  {| class := c;
     name := n;
     message := this.(message);
     statusCode := this.(statusCode);
     responseBody := this.(responseBody);
     err_url := this.(err_url) |}.

(** A subclass constructor: [super(message, statusCode, responseBody, url)],
    then [this.name] is overwritten. *)
Definition new_subclass (c : ErrorClass) (n : string) (message : string)
    (statusCode : Z) (responseBody url : string) : GitLabError :=
  rename c n (new_GitLabAPIError message statusCode responseBody url).

Definition new_GitLabNotFoundError :=
  new_subclass GitLabNotFoundError "GitLabNotFoundError".

Definition new_GitLabAuthenticationError :=
  new_subclass GitLabAuthenticationError "GitLabAuthenticationError".

Definition new_GitLabRateLimitError :=
  new_subclass GitLabRateLimitError "GitLabRateLimitError".

(** What a [throw] or a rejected promise carries: one of the typed errors, or
    any other error (an [Error] of the constructor, a transport failure of
    [fetch], a failure to read a body), known by its message. *)
Inductive exn : Type :=
  | Typed (e : GitLabError)
  | Other (msg : string).

(** The outcome of awaiting a promise. *)
Inductive settled (A : Type) : Type :=
  | Resolved (a : A)
  | Rejected (e : exn).

Arguments Resolved {A} a.
Arguments Rejected {A} e.

(** ** The interface of [fetch] *)

(** A [Headers] object through its one method used here: [get(name)] is the
    header's value or [null] ([None]). *)
Definition Headers : Type := string -> option string.

(** A Headers object holding the given fields. *)
Definition headers_of (fields : list (string * string)) : Headers :=
  fun name =>
    snd <$> List.find (fun kv => String.eqb (fst kv) name) fields.

(** A [Response]: its status, its headers, and what [json()] and [text()]
    settle to when awaited. *)
Record Response : Type := mkResponse {
  status : Z;
  headers : Headers;
  json : settled value;
  text : settled string
}.

(** [response.ok]: the status is in the range 200-299. *)
Definition ok (r : Response) : bool :=
  (200 <=? r.(status)) && (r.(status) <? 300).

(** One call [fetch(url, fetchOptions)]. *)
Record Request : Type := mkRequest {
  url : string;
  fetchOptions : object
}.

(** ** The client *)

(** The argument of the constructor; [None] is a missing property. *)
Record ClientOptions : Type := mkClientOptions {
  opt_host : option string;
  opt_token : option string;
  opt_apiVersion : option string
}.

Record GitLabAPI : Type := mkGitLabAPI {
  host : string;
  token : string;
  apiVersion : string;
  baseUrl : string;
  rateLimitRemaining : option string;
  rateLimitReset : option string
}.

(** ToBoolean of an optional string property. *)
Definition present (s : option string) : bool :=
  match s with
  | Some s => negb (String.eqb s "")
  | None => false
  end.

(** [new GitLabAPI(options)]. *)
Definition constructor (options : ClientOptions) : exn + GitLabAPI :=
  if negb (present options.(opt_host))
  then inl (Other "GitLab host is required.")
  else if negb (present options.(opt_token))
  then inl (Other "GitLab token is required.")
  else
    let h := default "" options.(opt_host) in
    let host := if startsWith "http" h then h else "https://" ++ h in
    let token := default "" options.(opt_token) in
    let apiVersion :=
      if present options.(opt_apiVersion)
      then default "" options.(opt_apiVersion) else "v4" in
    inr {| host := host;
           token := token;
           apiVersion := apiVersion;
           baseUrl := host ++ "/api/" ++ apiVersion;
           rateLimitRemaining := None;
           rateLimitReset := None |}.

(** The [options] bag of [_request] and [_paginatedRequest]: the three
    properties the code reads, each possibly missing, and whatever other
    properties the caller put in, which travel on to [fetch].  [per_page] is
    a number; [query] is the list of name-value pairs that [URLSearchParams]
    makes of it, values already turned into strings. *)
Record Options : Type := mkOptions {
  opt_headers : option object;
  opt_per_page : option Z;
  opt_query : option (list (string * string));
  opt_rest : object
}.

(** [{}]. *)
Definition no_options : Options :=
  {| opt_headers := None; opt_per_page := None; opt_query := None;
     opt_rest := [] |}.

(** The own properties of the bag, as [...options] enumerates them. *)
Definition own_properties (o : Options) : object :=
  (match o.(opt_headers) with Some h => [("headers", Obj h)] | None => [] end
   ++ match o.(opt_per_page) with Some n => [("per_page", Num n)] | None => [] end
   ++ match o.(opt_query) with
      | Some q => [("query", Obj (map (fun kv => (fst kv, Str (snd kv))) q))]
      | None => []
      end
   ++ o.(opt_rest))%list.

(** What [_request] resolves to. *)
Module ResponseEnvelope.
Record t : Type := mk {
  data : value;
  headers : Headers
}.
End ResponseEnvelope.

(** Lines 82-93: the payload of a 2xx response. *)
Definition read_body (response : Response) : value :=
  match response.(json) with
  | Resolved j => j
  | Rejected _ =>
      match response.(text) with
      | Resolved t => Str t
      | Rejected _ => Null
      end
  end.

(** Lines 42-72: the error thrown for a response that is not [ok], once its
    body text has been read. *)
Definition error_for (status : Z) (errorText url : string) : GitLabError :=
  if status =? 401 then
    new_GitLabAuthenticationError
      ("Authentication failed: " ++ errorText) status errorText url
  else if status =? 404 then
    new_GitLabNotFoundError
      ("Resource not found: " ++ errorText) status errorText url
  else if status =? 429 then
    new_GitLabRateLimitError
      ("Rate limit exceeded: " ++ errorText) status errorText url
  else
    new_GitLabAPIError
      ("HTTP error " ++ toString status ++ ": " ++ errorText)
      status errorText url.

(** Lines 23-34: the URL and the options handed to [fetch]. *)
Definition build_request (this : GitLabAPI) (method endpoint : string)
    (data : value) (options : Options) : Request :=
  let url := this.(baseUrl) ++ "/" ++ endpoint in
  let fetchOptions :=
    spread
      [("method", Str method);
       ("headers",
        Obj (spread
               [("PRIVATE-TOKEN", Str this.(token));
                ("Content-Type", Str "application/json")]
               (default [] options.(opt_headers))))]
      (own_properties options) in
  let fetchOptions :=
    if truthy data
    then set_prop "body" (Str (stringify data)) fetchOptions
    else fetchOptions in
  {| url := url; fetchOptions := fetchOptions |}.

(** [_request(method, endpoint, data, options)], given what the call of
    [fetch] settles to: the client afterwards, the request made, and the
    outcome. *)
Definition _request (this : GitLabAPI) (method endpoint : string)
    (data : value) (options : Options) (fetched : settled Response)
    : GitLabAPI * Request * settled ResponseEnvelope.t :=
  let request := build_request this method endpoint data options in
  match fetched with
  | Rejected error => (this, request, Rejected error)
  | Resolved response =>
      let this' :=
        {| host := this.(host);
           token := this.(token);
           apiVersion := this.(apiVersion);
           baseUrl := this.(baseUrl);
           rateLimitRemaining := response.(headers) "RateLimit-Remaining";
           rateLimitReset := response.(headers) "RateLimit-Reset" |} in
      if negb (ok response) then
        match response.(text) with
        | Rejected error => (this', request, Rejected error)
        | Resolved errorText =>
            (this', request,
             Rejected (Typed (error_for response.(status) errorText
                                        request.(url))))
        end
      else
        (this', request,
         Resolved {| ResponseEnvelope.data := read_body response;
                     ResponseEnvelope.headers := response.(headers) |})
  end.

(** ** The paginator *)

(** The local variables of [_paginatedRequest] that live across iterations;
    [headers] is [None] while still unassigned. *)
Module Loop.
Record state : Type := mk {
  allItems : list value;
  currentPage : Z;
  totalPages : option jsnum;
  totalItems : option jsnum;
  headers : option Headers
}.
End Loop.

(** The object returned at line 164. *)
Module CollectionEnvelope.
Record t : Type := mk {
  items : list value;
  currentPage : Z;
  totalPages : option jsnum;
  totalItems : option jsnum;
  headers : option Headers
}.
End CollectionEnvelope.

(** What [_paginatedRequest] can return: the payload of a response as it is
    (line 133), or the envelope (line 164). *)
Inductive PaginatedResult : Type :=
  | Payload (responseData : value)
  | Collection (envelope : CollectionEnvelope.t).

(** [options.per_page || 100]. *)
Definition perPage_of (options : Options) : Z :=
  match options.(opt_per_page) with
  | Some n => if truthy (Num n) then n else 100
  | None => 100
  end.

(** Lines 112-120. *)
Definition fullEndpoint (endpoint : string) (options : Options)
    (currentPage perPage : Z) : string :=
  let queryParams : URLSearchParams := default [] options.(opt_query) in
  let queryParams := params_set "page" (toString currentPage) queryParams in
  let queryParams := params_set "per_page" (toString perPage) queryParams in
  endpoint ++
  (if negb (String.eqb (params_toString queryParams) "")
   then (if includes "?" endpoint then "&" else "?")
        ++ params_toString queryParams
   else "").

(** Lines 138-146: a header that is present and not empty is parsed and
    replaces what was known. *)
Definition parse_header (known : option jsnum) (header : option string)
    : option jsnum :=
  match header with
  | Some h => if negb (String.eqb h "") then Some (parseInt10 h) else known
  | None => known
  end.

(** The three ways out of lines 148-157. *)
Inductive decision : Type :=
  | BreakOnLength
  | BreakOnTotalPages
  | NextPage.

(** Lines 148-157: the length test first, the header test second. *)
Definition termination_check (length perPage : Z) (totalPages : option jsnum)
    (currentPage : Z) : decision :=
  if length <? perPage then BreakOnLength
  else if truthy_num totalPages && ge_num currentPage totalPages
       then BreakOnTotalPages
  else NextPage.

(** How one turn of the [while (true)] loop ends. *)
Inductive Step : Type :=
  | Continue (st : Loop.state)
  | Break (st : Loop.state)
  | Return (responseData : value)
  | Throw (error : exn).

(** Lines 111-161: one turn of the loop, given what its [fetch] settles to. *)
Definition iteration (this : GitLabAPI) (method endpoint : string)
    (data : value) (options : Options) (perPage : Z) (st : Loop.state)
    (fetched : settled Response) : GitLabAPI * Request * Step :=
  let '(this', request, result) :=
    _request this method
      (fullEndpoint endpoint options st.(Loop.currentPage) perPage)
      data options fetched in
  match result with
  | Rejected error => (this', request, Throw error)
  | Resolved response =>
      let headers := response.(ResponseEnvelope.headers) in
      let responseData := response.(ResponseEnvelope.data) in
      match responseData with
      | Arr elements =>
          let allItems := (st.(Loop.allItems) ++ elements)%list in
          let totalPages :=
            parse_header st.(Loop.totalPages) (headers "X-Total-Pages") in
          let totalItems :=
            parse_header st.(Loop.totalItems) (headers "X-Total") in
          let st' :=
            {| Loop.allItems := allItems;
               Loop.currentPage := st.(Loop.currentPage) + 1;
               Loop.totalPages := totalPages;
               Loop.totalItems := totalItems;
               Loop.headers := Some headers |} in
          match termination_check (Z.of_nat (length elements)) perPage
                  totalPages st.(Loop.currentPage) with
          | BreakOnLength => (this', request, Break st')
          | BreakOnTotalPages => (this', request, Break st')
          | NextPage => (this', request, Continue st')
          end
      | _ => (this', request, Return responseData)
      end
  end.

(** How a call of [_paginatedRequest] ends: it returns, it throws, or it is
    still awaiting a [fetch] that has not settled. *)
Inductive Outcome : Type :=
  | Returned (result : PaginatedResult)
  | Thrown (error : exn)
  | Pending.

(** A run: its end, the client afterwards, and the calls of [fetch] it made,
    in order. *)
Record Run : Type := mkRun {
  outcome : Outcome;
  client : GitLabAPI;
  requests : list Request
}.

Definition sent (request : Request) (r : Run) : Run :=
  {| outcome := r.(outcome);
     client := r.(client);
     requests := request :: r.(requests) |}.

(** Lines 164-170. *)
Definition envelope_of (st : Loop.state) : CollectionEnvelope.t :=
  {| CollectionEnvelope.items := st.(Loop.allItems);
     CollectionEnvelope.currentPage := st.(Loop.currentPage) - 1;
     CollectionEnvelope.totalPages := st.(Loop.totalPages);
     CollectionEnvelope.totalItems := st.(Loop.totalItems);
     CollectionEnvelope.headers := st.(Loop.headers) |}.

(** Lines 110-162: the loop, run against the answers that the successive
    calls of [fetch] settle to.  When the answers run out the loop has made
    its next call and waits. *)
Fixpoint loop (this : GitLabAPI) (method endpoint : string) (data : value)
    (options : Options) (perPage : Z) (st : Loop.state)
    (answers : list (settled Response)) : Run :=
  match answers with
  | [] =>
      {| outcome := Pending;
         client := this;
         requests :=
           [build_request this method
              (fullEndpoint endpoint options st.(Loop.currentPage) perPage)
              data options] |}
  | fetched :: answers' =>
      let '(this', request, step) :=
        iteration this method endpoint data options perPage st fetched in
      match step with
      | Continue st' =>
          sent request
            (loop this' method endpoint data options perPage st' answers')
      | Break st' =>
          {| outcome := Returned (Collection (envelope_of st'));
             client := this';
             requests := [request] |}
      | Return responseData =>
          {| outcome := Returned (Payload responseData);
             client := this';
             requests := [request] |}
      | Throw error =>
          {| outcome := Thrown error;
             client := this';
             requests := [request] |}
      end
  end.

(** Lines 101-106. *)
Definition initial : Loop.state :=
  {| Loop.allItems := [];
     Loop.currentPage := 1;
     Loop.totalPages := None;
     Loop.totalItems := None;
     Loop.headers := None |}.

(** [_paginatedRequest(method, endpoint, data, options)], run against the
    answers of its calls of [fetch]. *)
Definition _paginatedRequest (this : GitLabAPI) (method endpoint : string)
    (data : value) (options : Options) (answers : list (settled Response))
    : Run :=
  loop this method endpoint data options (perPage_of options) initial answers.

(** ** Vocabulary of the specification *)

(** A host string carries a scheme when it has the form [scheme://...]. *)
Definition has_scheme (host : string) : bool := includes "://" host.

(** The X-Total-Pages headers of the given responses, fetched as pages
    [page], [page + 1], ... with [known] the count known beforehand, never
    make the test of line 152 succeed. *)
Fixpoint no_header_stop (known : option jsnum) (page : Z)
    (responses : list Response) : bool :=
  match responses with
  | [] => true
  | r :: responses' =>
      let known' := parse_header known (r.(headers) "X-Total-Pages") in
      negb (truthy_num known' && ge_num page known')
      && no_header_stop known' (page + 1) responses'
  end.

(** A response is a page holding the array [elements]: its status is 2xx and
    its payload is that array. *)
Definition page_of (r : Response) (elements : list value) : Prop :=
  ok r = true ∧ read_body r = Arr elements.

(** The run calls [fetch] for page [n]: its calls are for pages 1, 2, ... in
    that order, so this is to make at least [n] calls. *)
Definition requests_page (r : Run) (n : nat) : Prop :=
  (n ≤ length r.(requests))%nat.

(** The client of the test suite: [new GitLabAPI({ host: mockHost, token:
    mockToken })]. *)
Definition gitlab : GitLabAPI :=
  {| host := "https://gitlab.example.com";
     token := "test_token";
     apiVersion := "v4";
     baseUrl := "https://gitlab.example.com/api/v4";
     rateLimitRemaining := None;
     rateLimitReset := None |}.

(** A 2xx response whose body parses as the JSON value [j], with the given
    header fields. *)
Definition json_response (fields : list (string * string)) (j : value)
    : Response :=
  {| status := 200;
     headers := headers_of fields;
     json := Resolved j;
     text := Rejected (Other "body used already") |}.

(** A response with the given status whose body does not parse as JSON and
    reads as the text [body]. *)
Definition text_response (status : Z) (fields : list (string * string))
    (body : string) : Response :=
  {| status := status;
     headers := headers_of fields;
     json := Rejected (Other "invalid json response body");
     text := Resolved body |}.

(** [{ per_page: 2, query: {} }], the options of the pagination tests. *)
Definition mockOptions : Options :=
  {| opt_headers := None; opt_per_page := Some 2; opt_query := Some [];
     opt_rest := [] |}.

(** The answers of the pagination test of the test suite: a full first page
    that announces two pages, then a short second page. *)
Definition mockPages : list (settled Response) :=
  [Resolved (json_response [("X-Total-Pages", "2")]
               (Arr [Obj [("id", Num 1)]; Obj [("id", Num 2)]]));
   Resolved (json_response [] (Arr [Obj [("id", Num 3)]]))].

(** The responses among the given answers of [fetch], in order: what a run
    that used these answers received. *)
Fixpoint responses_of (answers : list (settled Response)) : list Response :=
  match answers with
  | [] => []
  | Resolved r :: answers' => r :: responses_of answers'
  | Rejected _ :: answers' => responses_of answers'
  end.

(** Lines 112-114: the query parameters of the request for one page. *)
Definition pagination_params (options : Options) (currentPage perPage : Z)
    : URLSearchParams :=
  params_set "per_page" (toString perPage)
    (params_set "page" (toString currentPage)
       (default [] options.(opt_query))).

(** The pairs of a parameter list that are called [name]. *)
Definition named (name : string) (ps : URLSearchParams) : URLSearchParams :=
  List.filter (fun kv => String.eqb (fst kv) name) ps.

(** The X-Total-Pages (or X-Total) count known after the given responses
    have been taken in one after the other, lines 138-146. *)
Definition known_after (header : string) (known : option jsnum)
    (responses : list Response) : option jsnum :=
  fold_left (fun k r => parse_header k (r.(headers) header)) responses known.

(** [encodeURIComponent]: letters, digits and [- _ . ! ~ * ' ( )] stay, any
    other byte is written as a percent sign and two upper-case hexadecimal
    digits. *)
Definition uri_component_byte (c : ascii) : string :=
  let n := Z.of_N (N_of_ascii c) in
  if ((48 <=? n) && (n <=? 57)) || ((65 <=? n) && (n <=? 90))
     || ((97 <=? n) && (n <=? 122))
     || (n =? 45) || (n =? 95) || (n =? 46) || (n =? 33) || (n =? 126)
     || (n =? 42) || ((39 <=? n) && (n <=? 41))
  then String c ""
  else "%" ++ upper_hex_digit (n / 16) ++ upper_hex_digit (n mod 16).

Fixpoint encodeURIComponent (s : string) : string :=
  match s with
  | EmptyString => ""
  | String c s' => uri_component_byte c ++ encodeURIComponent s'
  end.

(** Lines 136-146 and 149, 153 or 157: the variables of the loop after the
    page [r], holding the array [elements], has been taken in. *)
Definition taken_in (st : Loop.state) (r : Response) (elements : list value)
    : Loop.state :=
  {| Loop.allItems := (st.(Loop.allItems) ++ elements)%list;
     Loop.currentPage := st.(Loop.currentPage) + 1;
     Loop.totalPages :=
       parse_header st.(Loop.totalPages) (r.(headers) "X-Total-Pages");
     Loop.totalItems :=
       parse_header st.(Loop.totalItems) (r.(headers) "X-Total");
     Loop.headers := Some r.(headers) |}.

(** ** Resource methods *)

(** Lines 173-190.  An identifier interpolated into a path is the string it
    is rendered as. *)
Module projects.

Definition all (this : GitLabAPI) (options : Options)
    (answers : list (settled Response)) : Run :=
  _paginatedRequest this "GET" "projects" Null options answers.

Definition show (this : GitLabAPI) (projectId : string)
    (fetched : settled Response) :=
  _request this "GET" ("projects/" ++ projectId) Null no_options fetched.

Definition create (this : GitLabAPI) (data : value)
    (fetched : settled Response) :=
  _request this "POST" "projects" data no_options fetched.

Definition update (this : GitLabAPI) (projectId : string) (data : value)
    (fetched : settled Response) :=
  _request this "PUT" ("projects/" ++ projectId) data no_options fetched.

Definition remove (this : GitLabAPI) (projectId : string)
    (fetched : settled Response) :=
  _request this "DELETE" ("projects/" ++ projectId) Null no_options fetched.

Definition fork (this : GitLabAPI) (projectId : string) (data : value)
    (fetched : settled Response) :=
  _request this "POST" ("projects/" ++ projectId ++ "/fork") data no_options
    fetched.

Definition search (this : GitLabAPI) (searchString : string)
    (options : Options) (answers : list (settled Response)) : Run :=
  _paginatedRequest this "GET" ("projects?search=" ++ searchString) Null
    options answers.

End projects.

(** Lines 362-363: [pipelines.create(projectId, ref)]. *)
Module pipelines.

Definition create (this : GitLabAPI) (projectId : string) (ref : value)
    (fetched : settled Response) :=
  _request this "POST" ("projects/" ++ projectId ++ "/pipelines")
    (Obj [("ref", ref)]) no_options fetched.

End pipelines.

(** Lines 523-545. *)
Module search.

Definition projects (this : GitLabAPI) (query : string) (options : Options)
    (answers : list (settled Response)) : Run :=
  _paginatedRequest this "GET"
    ("search?scope=projects&search=" ++ encodeURIComponent query) Null
    options answers.

Definition groups (this : GitLabAPI) (query : string) (options : Options)
    (answers : list (settled Response)) : Run :=
  _paginatedRequest this "GET"
    ("search?scope=groups&search=" ++ encodeURIComponent query) Null
    options answers.

Definition users (this : GitLabAPI) (query : string) (options : Options)
    (answers : list (settled Response)) : Run :=
  _paginatedRequest this "GET"
    ("search?scope=users&search=" ++ encodeURIComponent query) Null
    options answers.

End search.

(** ** Properties of objects *)

Lemma get_prop_set_prop_eq (k : string) (v : value) (o : object) :
  get_prop k (set_prop k v o) = Some v.
Proof.
  induction o as [|[k' v'] o IH]; simpl.
  - by rewrite String.eqb_refl.
  - destruct (String.eqb k k') eqn:E; simpl.
    + by rewrite String.eqb_refl.
    + by rewrite E.
Qed.

Lemma get_prop_set_prop_ne (k k' : string) (v : value) (o : object) :
  k ≠ k' → get_prop k (set_prop k' v o) = get_prop k o.
Proof.
  intros Hne. apply String.eqb_neq in Hne.
  induction o as [|[k'' v''] o IH]; simpl.
  - by rewrite Hne.
  - destruct (String.eqb k' k'') eqn:E; simpl.
    + apply String.eqb_eq in E. subst k''. by rewrite Hne.
    + by rewrite IH.
Qed.

Lemma get_prop_app (k : string) (a b : object) :
  get_prop k (a ++ b)%list =
  match get_prop k a with Some v => Some v | None => get_prop k b end.
Proof.
  induction a as [|[k' v'] a IH]; simpl; [done|].
  by destruct (String.eqb k k').
Qed.

(** Spreading an object that has no property [k] leaves [k] as it was. *)
Lemma get_prop_spread_absent (k : string) (dst src : object) :
  get_prop k src = None → get_prop k (spread dst src) = get_prop k dst.
Proof.
  unfold spread. revert dst.
  induction src as [|[k' v'] src IH]; intros dst Hk; simpl in *; [done|].
  destruct (String.eqb k k') eqn:E; [done|].
  rewrite IH by done. apply get_prop_set_prop_ne.
  by apply String.eqb_neq.
Qed.

(** The last assignment made by a spread wins. *)
Lemma get_prop_spread_last (k : string) (v : value) (dst src : object) :
  get_prop k (spread dst (src ++ [(k, v)])%list) = Some v.
Proof.
  unfold spread. rewrite fold_left_app. simpl. apply get_prop_set_prop_eq.
Qed.

Lemma prefix_app_l (a b s : string) :
  String.prefix (a ++ b) s = true → String.prefix a s = true.
Proof.
  revert s. induction a as [|c a IH]; intros [|c' s] H; try done.
  simpl in *. destruct (ascii_dec c c'); [by apply IH | done].
Qed.

(** ** The constructor *)

(** C8, as amended.  With a token, a host that is not empty and does not
    begin with "http" yields [baseUrl = "https://" + host + "/api/" +
    apiVersion], and a host that begins with "http://" or "https://" is kept
    as it is in front of "/api/" and the version; the version is "v4" unless
    the caller supplies one. *)
Theorem constructor_baseUrl (h tok : string) (ver : option string) :
  h ≠ "" → tok ≠ "" →
  ∃ c : GitLabAPI,
    constructor {| opt_host := Some h; opt_token := Some tok;
                   opt_apiVersion := ver |} = inr c
    ∧ c.(apiVersion) = (if present ver then default "" ver else "v4")
    ∧ c.(baseUrl) = c.(host) ++ "/api/" ++ c.(apiVersion)
    ∧ (startsWith "http" h = false → c.(host) = "https://" ++ h)
    ∧ (startsWith "http://" h = true ∨ startsWith "https://" h = true →
       c.(host) = h).
Proof.
  intros Hh Ht. unfold constructor. simpl.
  apply String.eqb_neq in Hh, Ht. rewrite Hh, Ht. simpl.
  eexists. split; [reflexivity|]. simpl.
  repeat split.
  - intros E. by rewrite E.
  - intros [E|E].
    + apply (prefix_app_l "http" "://") in E. unfold startsWith. by rewrite E.
    + apply (prefix_app_l "http" "s://") in E. unfold startsWith. by rewrite E.
Qed.

Lemma constructor_baseUrl_witness :
  ∃ c : GitLabAPI,
    constructor {| opt_host := Some "gitlab.example.com";
                   opt_token := Some "test_token";
                   opt_apiVersion := None |} = inr c
    ∧ c.(apiVersion) = "v4"
    ∧ c.(baseUrl) = c.(host) ++ "/api/" ++ c.(apiVersion)
    ∧ (startsWith "http" "gitlab.example.com" = false →
       c.(host) = "https://" ++ "gitlab.example.com")
    ∧ (startsWith "http://" "gitlab.example.com" = true
       ∨ startsWith "https://" "gitlab.example.com" = true →
       c.(host) = "gitlab.example.com").
Proof.
  apply (constructor_baseUrl "gitlab.example.com" "test_token" None); done.
Defined.

(** C8, as stated, fails: a host that already contains a scheme is not left
    as it is when the scheme does not begin with "http". *)
Lemma constructor_scheme_counterexample :
  has_scheme "ftp://gitlab.example.com" = true
  ∧ ∃ c : GitLabAPI,
      constructor {| opt_host := Some "ftp://gitlab.example.com";
                     opt_token := Some "test_token";
                     opt_apiVersion := None |} = inr c
      ∧ c.(host) ≠ "ftp://gitlab.example.com"
      ∧ c.(baseUrl) = "https://ftp://gitlab.example.com/api/v4".
Proof.
  split; [reflexivity|]. eexists. split; [reflexivity|]. split; done.
Qed.

(** A host without a scheme whose name begins with the letters "http" is
    taken to have one: nothing is put in front of it. *)
Example constructor_http_named_host :
  has_scheme "httpd.example.com" = false
  ∧ ∃ c : GitLabAPI,
      constructor {| opt_host := Some "httpd.example.com";
                     opt_token := Some "test_token";
                     opt_apiVersion := None |} = inr c
      ∧ c.(baseUrl) = "httpd.example.com/api/v4".
Proof.
  split; [reflexivity|]. eexists. split; reflexivity.
Qed.

(** ** The request executor *)

Section Request.

Variables (this : GitLabAPI) (method endpoint : string).

Lemma own_properties_body (options : Options) :
  get_prop "body" options.(opt_rest) = None →
  get_prop "body" (own_properties options) = None.
Proof.
  intros H. unfold own_properties.
  destruct options as [[h|] [n|] [q|] rest]; simpl in *; exact H.
Qed.

(** C9, as stated, fails: the payload [0] is not null, and no body is
    attached for it. *)
Lemma request_body_counterexample :
  Num 0 ≠ Null
  ∧ get_prop "body"
      (build_request gitlab "POST" "projects" (Num 0) no_options).(fetchOptions)
    = None.
Proof. split; [discriminate | reflexivity]. Qed.

(** C9, as amended.  [_request] attaches [body = JSON.stringify(data)] exactly
    when the payload is truthy, which every object and every array is and
    which [null], [false], [0] and the empty string are not; for a falsy
    payload, when the options carry no [body] property of their own, the
    outgoing request has no [body] field. *)
Theorem request_body (data : value) (options : Options) :
  let sent := (build_request this method endpoint data options).(fetchOptions) in
  (truthy data = true → get_prop "body" sent = Some (Str (stringify data)))
  ∧ (truthy data = false → get_prop "body" options.(opt_rest) = None →
     get_prop "body" sent = None)
  ∧ (truthy data = true ↔
     data ≠ Null ∧ data ≠ Bool false ∧ data ≠ Num 0 ∧ data ≠ Str "").
Proof.
  simpl. unfold build_request. simpl. split; [|split; [|split]].
  - intros ->. apply get_prop_set_prop_eq.
  - intros -> Hrest. rewrite get_prop_spread_absent; [done|].
    by apply own_properties_body.
  - intros H. repeat split; intros ->; simpl in H; congruence.
  - intros (H1 & H2 & H3 & H4).
    destruct data as [ |[]|n|s| | ]; simpl; try done.
    + destruct (Z.eqb_spec n 0); [congruence | done].
    + destruct (String.eqb_spec s ""); [congruence | done].
Qed.

(** X6.  When the options have no [headers] property, the [headers] handed to
    [fetch] are exactly the two defaults: PRIVATE-TOKEN with the client's
    token, and Content-Type: application/json. *)
Lemma request_headers_default (data : value) (options : Options) :
  options.(opt_headers) = None →
  get_prop "headers" options.(opt_rest) = None →
  get_prop "headers"
    (build_request this method endpoint data options).(fetchOptions)
  = Some (Obj [("PRIVATE-TOKEN", Str this.(token));
               ("Content-Type", Str "application/json")]).
Proof.
  intros Hh Hrest. unfold build_request. simpl. rewrite Hh. simpl.
  assert (get_prop "headers" (own_properties options) = None) as Hown.
  { unfold own_properties. rewrite Hh.
    destruct options as [? [n|] [q|] rest]; simpl in *; exact Hrest. }
  destruct (truthy data).
  - rewrite get_prop_set_prop_ne by done.
    by rewrite get_prop_spread_absent.
  - by rewrite get_prop_spread_absent.
Qed.

(** With [options.headers] the [headers] property that reaches [fetch] is
    that object itself: [...options] on line 31 assigns [options.headers]
    over the merged headers of lines 26-30. *)
Lemma request_headers_replaced (data : value) (options : Options) (h : object) :
  options.(opt_headers) = Some h →
  get_prop "headers" options.(opt_rest) = None →
  get_prop "headers"
    (build_request this method endpoint data options).(fetchOptions)
  = Some (Obj h).
Proof.
  intros Hh Hrest. unfold build_request. simpl. rewrite Hh. simpl.
  assert (get_prop "headers"
            (spread
               [("method", Str method);
                ("headers",
                 Obj (spread
                        [("PRIVATE-TOKEN", Str this.(token));
                         ("Content-Type", Str "application/json")] h))]
               (own_properties options)) = Some (Obj h)) as Hsent.
  { unfold own_properties. rewrite Hh. unfold spread at 1. simpl.
    fold (spread [("method", Str method); ("headers", Obj h)]
            (match opt_per_page options with
             | Some n => [("per_page", Num n)] | None => [] end
             ++ match opt_query options with
                | Some q =>
                    [("query", Obj (map (fun kv => (kv.1, Str kv.2)) q))]
                | None => [] end
             ++ opt_rest options)%list).
    rewrite get_prop_spread_absent; [done|].
    destruct (opt_per_page options), (opt_query options); simpl; exact Hrest. }
  destruct (truthy data); [|exact Hsent].
  by rewrite get_prop_set_prop_ne.
Qed.

(** C5 at a failing input: for [options = { headers: { "X-Custom": "1" } }]
    the headers handed to [fetch] are the caller's alone; PRIVATE-TOKEN and
    Content-Type are not among them. *)
Theorem request_headers_lost :
  match
    get_prop "headers"
      (build_request gitlab "GET" "projects" Null
         {| opt_headers := Some [("X-Custom", Str "1")];
            opt_per_page := None; opt_query := None; opt_rest := [] |}
      ).(fetchOptions)
  with
  | Some (Obj h) =>
      h = [("X-Custom", Str "1")]
      ∧ get_prop "PRIVATE-TOKEN" h = None
      ∧ get_prop "Content-Type" h = None
  | _ => False
  end.
Proof. vm_compute. repeat split. Qed.



(** C6.  Once [fetch] has resolved, whatever the status, the two rate-limit
    fields of the client are what [get] returns for the two headers of that
    response ([null] for an absent header), and nothing else of the client
    changes; hence after two requests the fields are those of the second
    response. *)
Theorem request_rate_limit (data data' : value) (options options' : Options)
    (method' endpoint' : string) (response response' : Response) :
  let after :=
    (_request this method endpoint data options (Resolved response)).1.1 in
  let after' :=
    (_request after method' endpoint' data' options' (Resolved response')).1.1 in
  after.(rateLimitRemaining) = response.(headers) "RateLimit-Remaining"
  ∧ after.(rateLimitReset) = response.(headers) "RateLimit-Reset"
  ∧ after.(baseUrl) = this.(baseUrl) ∧ after.(token) = this.(token)
  ∧ after'.(rateLimitRemaining) = response'.(headers) "RateLimit-Remaining"
  ∧ after'.(rateLimitReset) = response'.(headers) "RateLimit-Reset".
Proof.
  unfold _request.
  destruct (ok response), (ok response'), (text response), (text response');
    simpl; repeat split.
Qed.

(** C7.  For a 2xx response [_request] resolves, and its [data] is the parsed
    JSON when [json()] resolves, else the text when [text()] resolves, else
    [null]; the headers are those of the response. *)
Theorem request_success (data : value) (options : Options)
    (response : Response) :
  ok response = true →
  ∃ payload : value,
    (_request this method endpoint data options (Resolved response)).2
    = Resolved {| ResponseEnvelope.data := payload;
                  ResponseEnvelope.headers := response.(headers) |}
    ∧ (∀ j, response.(json) = Resolved j → payload = j)
    ∧ (∀ e t, response.(json) = Rejected e → response.(text) = Resolved t →
              payload = Str t)
    ∧ (∀ e e', response.(json) = Rejected e → response.(text) = Rejected e' →
               payload = Null).
Proof.
  intros Hok. unfold _request. rewrite Hok. simpl.
  eexists. split; [reflexivity|]. unfold read_body.
  repeat split.
  - by intros j ->.
  - by intros e t -> ->.
  - by intros e e' -> ->.
Qed.

End Request.

(** ** The paginator *)

Section Paginator.

Variables (method endpoint : string) (data : value) (options : Options).
Variable perPage : Z.

(** The state after a page holding [elements] has been taken in. *)
Lemma iteration_page (this : GitLabAPI) (st : Loop.state) (r : Response)
    (elements : list value) :
  page_of r elements →
  ∃ (this' : GitLabAPI) (request : Request),
    let totalPages :=
      parse_header st.(Loop.totalPages) (r.(headers) "X-Total-Pages") in
    let st' :=
      {| Loop.allItems := (st.(Loop.allItems) ++ elements)%list;
         Loop.currentPage := st.(Loop.currentPage) + 1;
         Loop.totalPages := totalPages;
         Loop.totalItems :=
           parse_header st.(Loop.totalItems) (r.(headers) "X-Total");
         Loop.headers := Some r.(headers) |} in
    iteration this method endpoint data options perPage st (Resolved r)
    = (this', request,
       match termination_check (Z.of_nat (length elements)) perPage
               totalPages st.(Loop.currentPage) with
       | NextPage => Continue st'
       | _ => Break st'
       end).
Proof.
  intros [Hok Hbody]. unfold iteration, _request. rewrite Hok. simpl.
  rewrite Hbody. do 2 eexists.
  destruct (termination_check _ _ _ _); reflexivity.
Qed.

(** A payload that is not an array ends the turn with that payload. *)
Lemma iteration_payload (this : GitLabAPI) (st : Loop.state) (r : Response) :
  ok r = true → isArray (read_body r) = false →
  ∃ (this' : GitLabAPI) (request : Request),
    iteration this method endpoint data options perPage st (Resolved r)
    = (this', request, Return (read_body r)).
Proof.
  intros Hok Hna. unfold iteration, _request. rewrite Hok. simpl.
  destruct (read_body r); try done; by do 2 eexists.
Qed.

(** A turn that goes on to the next one has moved to the next page. *)
Lemma iteration_continue (this this' : GitLabAPI) (st st' : Loop.state)
    (fetched : settled Response) (request : Request) :
  iteration this method endpoint data options perPage st fetched
  = (this', request, Continue st') →
  st'.(Loop.currentPage) = st.(Loop.currentPage) + 1.
Proof.
  unfold iteration.
  destruct (_request _ _ _ _ _ _) as [[this1 request1] [response|error]];
    [|done].
  destruct (ResponseEnvelope.data response); try done.
  destruct (termination_check _ _ _ _); try done.
  by intros [= _ _ <-].
Qed.

(** If the loop makes more than [k] calls of [fetch], its first [k] turns all
    went on: what is left is the loop at page [currentPage + k], run against
    the answers that remain. *)
Lemma loop_reach (k : nat) :
  ∀ (answers : list (settled Response)) (this : GitLabAPI) (st : Loop.state),
    (k < length (loop this method endpoint data options perPage st answers).(requests))%nat →
    ∃ (this' : GitLabAPI) (st' : Loop.state),
      st'.(Loop.currentPage) = st.(Loop.currentPage) + Z.of_nat k
      ∧ (loop this method endpoint data options perPage st answers).(outcome)
        = (loop this' method endpoint data options perPage st'
             (drop k answers)).(outcome)
      ∧ length (loop this method endpoint data options perPage st answers).(requests)
        = (k + length (loop this' method endpoint data options perPage st'
                         (drop k answers)).(requests))%nat.
Proof.
  induction k as [|k IH]; intros answers this st Hk.
  - exists this, st. rewrite drop_0. split; [lia|done].
  - destruct answers as [|fetched answers]; simpl in Hk; [lia|].
    simpl.
    destruct (iteration this method endpoint data options perPage st fetched)
      as [[this1 request] step] eqn:Hit.
    destruct step as [st1| | |]; simpl in Hk; try lia.
    apply iteration_continue in Hit.
    destruct (IH answers this1 st1) as (this' & st' & Hp & Ho & Hn); [lia|].
    exists this', st'. simpl. rewrite Hp, Hit, Ho, Hn. split; [lia|done].
Qed.

(** Full pages that the header test does not stop are all fetched, one call
    each, and their elements are accumulated in order. *)
Lemma loop_full_pages (pages : list Response) :
  ∀ (arrays : list (list value)) (rest : list (settled Response))
    (this : GitLabAPI) (st : Loop.state),
    Forall2 (λ r a, page_of r a ∧ Z.of_nat (length a) = perPage)
      pages arrays →
    no_header_stop st.(Loop.totalPages) st.(Loop.currentPage) pages = true →
    ∃ (this' : GitLabAPI) (st' : Loop.state),
      st'.(Loop.allItems) = (st.(Loop.allItems) ++ concat arrays)%list
      ∧ st'.(Loop.currentPage)
        = st.(Loop.currentPage) + Z.of_nat (length pages)
      ∧ (loop this method endpoint data options perPage st
           (map Resolved pages ++ rest)%list).(outcome)
        = (loop this' method endpoint data options perPage st' rest).(outcome)
      ∧ length (loop this method endpoint data options perPage st
                  (map Resolved pages ++ rest)%list).(requests)
        = (length pages
           + length (loop this' method endpoint data options perPage st'
                       rest).(requests))%nat.
Proof.
  induction pages as [|r pages IH]; intros arrays rest this st Hpages Hstop.
  - apply Forall2_nil_inv_l in Hpages as ->. exists this, st.
    simpl. rewrite app_nil_r. split; [done|]. split; [lia|done].
  - apply Forall2_cons_inv_l in Hpages as (a & arrays' & [Hpage Hlen] & Hpages & ->).
    simpl in Hstop. apply andb_true_iff in Hstop as [Hhere Hstop].
    destruct (iteration_page this st r a Hpage) as (this1 & request & Hit).
    simpl in Hit. apply negb_true_iff in Hhere.
    unfold termination_check in Hit.
    rewrite Hlen, Z.ltb_irrefl, Hhere in Hit.
    simpl. rewrite Hit.
    match type of Hit with _ = (_, _, Continue ?st1) =>
      destruct (IH arrays' rest this1 st1 Hpages Hstop)
        as (this' & st' & Hi & Hp & Ho & Hn)
    end.
    exists this', st'. simpl in *.
    rewrite Hi, Hp, Ho, Hn, <- app_assoc. split; [done|]. split; [lia|done].
Qed.

(** [_request] leaves the base URL of the client alone. *)
Lemma iteration_baseUrl (this this' : GitLabAPI) (st : Loop.state)
    (fetched : settled Response) (request : Request) (step : Step) :
  iteration this method endpoint data options perPage st fetched
  = (this', request, step) →
  this'.(baseUrl) = this.(baseUrl)
  ∧ request.(url)
    = this.(baseUrl) ++ "/"
      ++ fullEndpoint endpoint options st.(Loop.currentPage) perPage.
Proof.
  unfold iteration, _request.
  destruct fetched as [r|e]; simpl.
  - destruct (ok r); simpl.
    + destruct (read_body r); try destruct (termination_check _ _ _ _);
        by intros [= <- <- _].
    + destruct (text r); by intros [= <- <- _].
  - by intros [= <- <- _].
Qed.

(** The call number [k] of a run of the loop, counted from 0, asks for page
    [currentPage + k]. *)
Lemma loop_request_url (answers : list (settled Response)) :
  ∀ (k : nat) (this : GitLabAPI) (st : Loop.state) (request : Request),
    (loop this method endpoint data options perPage st answers).(requests)
      !! k = Some request →
    request.(url)
    = this.(baseUrl) ++ "/"
      ++ fullEndpoint endpoint options (st.(Loop.currentPage) + Z.of_nat k)
           perPage.
Proof.
  induction answers as [|fetched answers IH]; intros k this st request Hk.
  - destruct k as [|k]; simpl in Hk; [|done].
    injection Hk as <-. simpl. by rewrite Z.add_0_r.
  - simpl in Hk.
    destruct (iteration this method endpoint data options perPage st fetched)
      as [[this1 request1] step] eqn:Hit.
    pose proof (iteration_baseUrl _ _ _ _ _ _ Hit) as [Hbase Hurl].
    destruct k as [|k].
    + assert (request = request1) as ->
        by (destruct step; simpl in Hk; congruence).
      by rewrite Z.add_0_r.
    + destruct step as [st1| | |]; simpl in Hk; try done.
      apply iteration_continue in Hit.
      rewrite (IH k this1 st1 request Hk), Hbase, Hit.
      by replace (Loop.currentPage st + 1 + Z.of_nat k)
        with (Loop.currentPage st + Z.of_nat (S k)) by lia.
Qed.

End Paginator.

Section Claims.

Variables (this : GitLabAPI) (method endpoint : string) (data : value).
Variable options : Options.

(** C3.  When the first response is 2xx and its payload is not an array,
    [_paginatedRequest] returns that payload itself, not an envelope, after
    one call of [fetch], whatever answers would have followed. *)
Theorem paginate_first_payload (response : Response)
    (rest : list (settled Response)) :
  ok response = true →
  isArray (read_body response) = false →
  let run :=
    _paginatedRequest this method endpoint data options
      (Resolved response :: rest) in
  run.(outcome) = Returned (Payload (read_body response))
  ∧ length run.(requests) = 1%nat.
Proof.
  intros Hok Hna. unfold _paginatedRequest. cbn [loop].
  destruct (iteration_payload method endpoint data options
              (perPage_of options) this initial response Hok Hna)
    as (this' & request & ->).
  done.
Qed.

(** C1, as amended.  Let the answers begin with pages that each hold an array
    of [per_page] elements, followed by a page that holds a shorter array,
    and let no X-Total-Pages header make the test of line 152 succeed on a
    page before that last one.  Then [_paginatedRequest] makes one call per
    page and returns the envelope whose [items] are the arrays end to end in
    page order and whose [currentPage] is the number of pages.  With no full
    page and an empty last array this is the case of an empty first page:
    one call, no items, [currentPage] 1. *)
Theorem paginate_all_pages (pages : list Response)
    (arrays : list (list value)) (last : Response) (lastArray : list value)
    (rest : list (settled Response)) :
  Forall2 (λ r a, page_of r a ∧ Z.of_nat (length a) = perPage_of options)
    pages arrays →
  page_of last lastArray →
  Z.of_nat (length lastArray) < perPage_of options →
  no_header_stop None 1 pages = true →
  let run :=
    _paginatedRequest this method endpoint data options
      (map Resolved pages ++ Resolved last :: rest)%list in
  ∃ envelope : CollectionEnvelope.t,
    run.(outcome) = Returned (Collection envelope)
    ∧ envelope.(CollectionEnvelope.items) = (concat arrays ++ lastArray)%list
    ∧ envelope.(CollectionEnvelope.currentPage)
      = Z.of_nat (length pages + 1)
    ∧ length run.(requests) = (length pages + 1)%nat.
Proof.
  intros Hpages Hlast Hshort Hstop. unfold _paginatedRequest.
  destruct (loop_full_pages method endpoint data options (perPage_of options)
              pages arrays (Resolved last :: rest) this initial Hpages Hstop)
    as (this' & st' & Hi & Hp & Ho & Hn).
  cbn zeta. rewrite Ho, Hn. cbn [loop].
  destruct (iteration_page method endpoint data options (perPage_of options)
              this' st' last lastArray Hlast) as (this1 & request & Hit).
  cbn zeta in Hit. rewrite Hit. unfold termination_check.
  apply Z.ltb_lt in Hshort. rewrite Hshort.
  eexists. split; [reflexivity|]. cbn. rewrite Hi, Hp. cbn.
  split; [done|]. split; lia.
Qed.

(** C2.  In a run that calls [fetch] for page [N], if the answer to that call
    is a full page whose X-Total-Pages header parses to [N], the run makes no
    further call and returns the envelope with [currentPage = N].  The way
    out taken is the header test of line 152, and that test is only ever
    decisive when the length test of line 148 has failed. *)
Theorem paginate_stops_at_total_pages (answers : list (settled Response))
    (N : nat) (r : Response) (elements : list value) (h : string) :
  (1 ≤ N)%nat →
  answers !! (N - 1)%nat = Some (Resolved r) →
  page_of r elements →
  Z.of_nat (length elements) = perPage_of options →
  r.(headers) "X-Total-Pages" = Some h →
  parseInt10 h = Int (Z.of_nat N) →
  let run := _paginatedRequest this method endpoint data options answers in
  requests_page run N →
  length run.(requests) = N
  ∧ (∃ envelope : CollectionEnvelope.t,
       run.(outcome) = Returned (Collection envelope)
       ∧ envelope.(CollectionEnvelope.currentPage) = Z.of_nat N
       ∧ envelope.(CollectionEnvelope.totalPages) = Some (Int (Z.of_nat N)))
  ∧ termination_check (Z.of_nat (length elements)) (perPage_of options)
      (Some (Int (Z.of_nat N))) (Z.of_nat N) = BreakOnTotalPages
  ∧ (∀ (len pp : Z) (known : option jsnum) (page : Z),
       termination_check len pp known page = BreakOnTotalPages →
       ¬ len < pp).
Proof.
  intros HN Hanswer Hpage Hfull Hheader Hparse run Hreach.
  assert (termination_check (Z.of_nat (length elements)) (perPage_of options)
            (Some (Int (Z.of_nat N))) (Z.of_nat N) = BreakOnTotalPages)
    as Hcheck.
  { unfold termination_check. rewrite Hfull, Z.ltb_irrefl. simpl.
    destruct (Z.eqb_spec (Z.of_nat N) 0); [lia|]. simpl.
    by rewrite Z.leb_refl. }
  assert (h ≠ "") as Hne by (intros ->; discriminate Hparse).
  subst run. unfold requests_page, _paginatedRequest in *.
  destruct (loop_reach method endpoint data options (perPage_of options)
              (N - 1) answers this initial) as (this' & st' & Hp & Ho & Hn);
    [lia|].
  rewrite (drop_S _ _ _ Hanswer) in Ho, Hn. cbn [loop] in Ho, Hn.
  destruct (iteration_page method endpoint data options (perPage_of options)
              this' st' r elements Hpage) as (this1 & request & Hit).
  assert (∀ known, parse_header known (Some h) = Some (Int (Z.of_nat N)))
    as Hknown.
  { intros known. unfold parse_header.
    apply String.eqb_neq in Hne. by rewrite Hne, Hparse. }
  cbn zeta in Hit. rewrite Hheader, !Hknown in Hit.
  replace (Loop.currentPage st') with (Z.of_nat N) in Hit
    by (rewrite Hp; simpl; lia).
  rewrite Hcheck in Hit. rewrite Hit in Ho, Hn.
  cbn in Ho, Hn. rewrite Ho, Hn.
  split; [lia|]. split.
  - eexists. split; [reflexivity|]. cbn. split; [lia|done].
  - split; [exact Hcheck|].
    intros len pp known page. unfold termination_check.
    destruct (Z.ltb_spec len pp); [done|lia].
Qed.

(** C10.  In a run that calls [fetch] for page [N], [N >= 2], where the
    answers to the calls before are full pages and the answer to that call is
    a 2xx response whose payload is not an array, [_paginatedRequest] returns
    that payload alone: nothing of the arrays taken in before is returned. *)
Theorem paginate_later_payload (answers : list (settled Response)) (N : nat)
    (r : Response) :
  (2 ≤ N)%nat →
  (∀ i : nat, (i < N - 1)%nat →
     ∃ (p : Response) (a : list value),
       answers !! i = Some (Resolved p)
       ∧ page_of p a ∧ Z.of_nat (length a) = perPage_of options) →
  answers !! (N - 1)%nat = Some (Resolved r) →
  ok r = true →
  isArray (read_body r) = false →
  let run := _paginatedRequest this method endpoint data options answers in
  requests_page run N →
  run.(outcome) = Returned (Payload (read_body r))
  ∧ length run.(requests) = N.
Proof.
  intros HN _ Hanswer Hok Hna run Hreach.
  subst run. unfold requests_page, _paginatedRequest in *.
  destruct (loop_reach method endpoint data options (perPage_of options)
              (N - 1) answers this initial) as (this' & st' & Hp & Ho & Hn);
    [lia|].
  rewrite (drop_S _ _ _ Hanswer) in Ho, Hn. cbn [loop] in Ho, Hn.
  destruct (iteration_payload method endpoint data options
              (perPage_of options) this' st' r Hok Hna)
    as (this1 & request & Hit).
  rewrite Hit in Ho, Hn. cbn in Ho, Hn. rewrite Ho, Hn. split; [done|lia].
Qed.

(** The empty first page on its own: with a positive page size, one call,
    no items, [currentPage] 1. *)
Lemma paginate_empty_first_page (first : Response)
    (rest : list (settled Response)) :
  page_of first [] →
  0 < perPage_of options →
  let run :=
    _paginatedRequest this method endpoint data options
      (Resolved first :: rest) in
  ∃ envelope : CollectionEnvelope.t,
    run.(outcome) = Returned (Collection envelope)
    ∧ envelope.(CollectionEnvelope.items) = []
    ∧ envelope.(CollectionEnvelope.currentPage) = 1
    ∧ length run.(requests) = 1%nat.
Proof.
  intros Hfirst Hpos. unfold _paginatedRequest. cbn [loop].
  destruct (iteration_page method endpoint data options (perPage_of options)
              this initial first [] Hfirst) as (this1 & request & Hit).
  cbn zeta in Hit. unfold termination_check in Hit.
  apply Z.ltb_lt in Hpos. change (Z.of_nat (length [])) with 0 in Hit.
  rewrite Hpos in Hit. rewrite Hit.
  eexists. by split; [reflexivity|].
Qed.

End Claims.

(** ** The claims at concrete inputs *)

Lemma request_body_witness :
  get_prop "body"
    (build_request gitlab "POST" "projects"
       (Obj [("name", Str "test project")]) no_options).(fetchOptions)
  = Some (Str (stringify (Obj [("name", Str "test project")]))).
Proof.
  exact (proj1 (request_body gitlab "POST" "projects"
                  (Obj [("name", Str "test project")]) no_options) eq_refl).
Defined.


Lemma request_success_witness :
  ∃ payload : value,
    (_request gitlab "GET" "projects" Null no_options
       (Resolved (json_response [] (Obj [("data", Str "test")])))).2
    = Resolved {| ResponseEnvelope.data := payload;
                  ResponseEnvelope.headers := headers_of [] |}
    ∧ payload = Obj [("data", Str "test")].
Proof.
  destruct (request_success gitlab "GET" "projects" Null no_options
              (json_response [] (Obj [("data", Str "test")])) eq_refl)
    as (payload & Hresolved & Hjson & _).
  exists payload. split; [exact Hresolved | exact (Hjson _ eq_refl)].
Defined.

Lemma paginate_first_payload_witness :
  let run :=
    _paginatedRequest gitlab "GET" "projects" Null no_options
      [Resolved (json_response [] (Obj [("id", Num 1)]))] in
  run.(outcome) = Returned (Payload (Obj [("id", Num 1)]))
  ∧ length run.(requests) = 1%nat.
Proof.
  exact (paginate_first_payload gitlab "GET" "projects" Null no_options
           (json_response [] (Obj [("id", Num 1)])) [] eq_refl eq_refl).
Defined.

(** The pagination test of the test suite: a full first page that announces
    two pages, then a short second page. *)
Lemma paginate_all_pages_witness :
  let run :=
    _paginatedRequest gitlab "GET" "projects" Null mockOptions
      [Resolved (json_response [("X-Total-Pages", "2")]
                   (Arr [Obj [("id", Num 1)]; Obj [("id", Num 2)]]));
       Resolved (json_response [] (Arr [Obj [("id", Num 3)]]))] in
  ∃ envelope : CollectionEnvelope.t,
    run.(outcome) = Returned (Collection envelope)
    ∧ envelope.(CollectionEnvelope.items)
      = [Obj [("id", Num 1)]; Obj [("id", Num 2)]; Obj [("id", Num 3)]]
    ∧ envelope.(CollectionEnvelope.currentPage) = 2
    ∧ length run.(requests) = 2%nat.
Proof.
  apply (paginate_all_pages gitlab "GET" "projects" Null mockOptions
           [json_response [("X-Total-Pages", "2")]
              (Arr [Obj [("id", Num 1)]; Obj [("id", Num 2)]])]
           [[Obj [("id", Num 1)]; Obj [("id", Num 2)]]]
           (json_response [] (Arr [Obj [("id", Num 3)]]))
           [Obj [("id", Num 3)]] []).
  - repeat constructor.
  - split; reflexivity.
  - reflexivity.
  - reflexivity.
Defined.

(** C1, as stated, fails.  With [per_page] 2, let page 1 hold two elements
    and page 2 hold one, so that the pages are as the claim asks; let page 1
    also carry X-Total-Pages: 1.  The run stops after page 1: the items are
    those of page 1 alone and [currentPage] is 1, not the three items and
    the two pages of the sequence. *)
Lemma paginate_all_pages_counterexample :
  let page1 := json_response [("X-Total-Pages", "1")] (Arr [Num 1; Num 2]) in
  let page2 := json_response [] (Arr [Num 3]) in
  let run :=
    _paginatedRequest gitlab "GET" "projects" Null mockOptions
      [Resolved page1; Resolved page2] in
  page_of page1 [Num 1; Num 2]
  ∧ Z.of_nat (length [Num 1; Num 2]) = perPage_of mockOptions
  ∧ page_of page2 [Num 3]
  ∧ Z.of_nat (length [Num 3]) < perPage_of mockOptions
  ∧ ∃ envelope : CollectionEnvelope.t,
      run.(outcome) = Returned (Collection envelope)
      ∧ envelope.(CollectionEnvelope.items) = [Num 1; Num 2]
      ∧ envelope.(CollectionEnvelope.items) ≠ [Num 1; Num 2; Num 3]
      ∧ envelope.(CollectionEnvelope.currentPage) = 1
      ∧ envelope.(CollectionEnvelope.currentPage) ≠ 2
      ∧ length run.(requests) = 1%nat.
Proof.
  cbn zeta. split; [by split|]. split; [reflexivity|].
  split; [by split|]. split; [reflexivity|].
  eexists. split; [vm_compute; reflexivity|]. cbn.
  repeat split; done.
Qed.

Lemma paginate_stops_at_total_pages_witness :
  let run :=
    _paginatedRequest gitlab "GET" "projects" Null mockOptions
      [Resolved (json_response [("X-Total-Pages", "2")] (Arr [Num 1; Num 2]));
       Resolved (json_response [("X-Total-Pages", "2")] (Arr [Num 3; Num 4]));
       Resolved (json_response [] (Arr [Num 5]))] in
  length run.(requests) = 2%nat
  ∧ ∃ envelope : CollectionEnvelope.t,
      run.(outcome) = Returned (Collection envelope)
      ∧ envelope.(CollectionEnvelope.currentPage) = 2
      ∧ envelope.(CollectionEnvelope.totalPages) = Some (Int 2).
Proof.
  destruct (paginate_stops_at_total_pages gitlab "GET" "projects" Null
              mockOptions
              [Resolved (json_response [("X-Total-Pages", "2")]
                           (Arr [Num 1; Num 2]));
               Resolved (json_response [("X-Total-Pages", "2")]
                           (Arr [Num 3; Num 4]));
               Resolved (json_response [] (Arr [Num 5]))]
              2 (json_response [("X-Total-Pages", "2")] (Arr [Num 3; Num 4]))
              [Num 3; Num 4] "2")
    as (Hcalls & Henvelope & _).
  - lia.
  - reflexivity.
  - split; reflexivity.
  - reflexivity.
  - reflexivity.
  - reflexivity.
  - vm_compute. lia.
  - split; [exact Hcalls | exact Henvelope].
Defined.

Lemma paginate_later_payload_witness :
  let run :=
    _paginatedRequest gitlab "GET" "projects" Null mockOptions
      [Resolved (json_response [] (Arr [Num 1; Num 2]));
       Resolved (json_response [] (Obj [("message", Str "done")]))] in
  run.(outcome) = Returned (Payload (Obj [("message", Str "done")]))
  ∧ length run.(requests) = 2%nat.
Proof.
  apply (paginate_later_payload gitlab "GET" "projects" Null mockOptions
           [Resolved (json_response [] (Arr [Num 1; Num 2]));
            Resolved (json_response [] (Obj [("message", Str "done")]))]
           2 (json_response [] (Obj [("message", Str "done")]))).
  - lia.
  - intros i Hi. assert (i = 0%nat) as -> by lia.
    exists (json_response [] (Arr [Num 1; Num 2])), [Num 1; Num 2].
    repeat split.
  - reflexivity.
  - reflexivity.
  - reflexivity.
  - vm_compute. lia.
Defined.

(** * Further properties of the code *)

(** ** The constructor, lines 8-20 *)

(** X1.  The constructor succeeds exactly when host and token are both
    present and not empty.  A missing or empty host is reported first, also
    when the token is missing too; a missing or empty token is reported when
    the host is there.  A new client has no rate-limit figures yet. *)
Theorem constructor_validation (options : ClientOptions) :
  (options.(opt_host) = None ∨ options.(opt_host) = Some "" →
   constructor options = inl (Other "GitLab host is required."))
  ∧ (present options.(opt_host) = true →
     options.(opt_token) = None ∨ options.(opt_token) = Some "" →
     constructor options = inl (Other "GitLab token is required."))
  ∧ ((∃ c, constructor options = inr c) ↔
     (∃ h t, options.(opt_host) = Some h ∧ h ≠ ""
             ∧ options.(opt_token) = Some t ∧ t ≠ ""))
  ∧ (∀ c, constructor options = inr c →
          c.(rateLimitRemaining) = None ∧ c.(rateLimitReset) = None
          ∧ options.(opt_token) = Some c.(token)).
Proof.
  destruct options as [h t v]. unfold constructor. simpl.
  split; [|split; [|split]].
  - by intros [-> | ->].
  - by intros -> [-> | ->].
  - split.
    + intros [c Hc]. destruct h as [h|]; [|done]. destruct t as [t|].
      * exists h, t. simpl in Hc.
        destruct (String.eqb_spec h ""); [done|].
        destruct (String.eqb_spec t ""); [done|]. done.
      * simpl in Hc. by destruct (String.eqb h "").
    + intros (h' & t' & -> & Hh & -> & Ht). simpl.
      apply String.eqb_neq in Hh, Ht. rewrite Hh, Ht. simpl. by eexists.
  - intros c Hc. destruct h as [h|]; [|done]. destruct t as [t|]; simpl in Hc.
    + destruct (String.eqb h ""), (String.eqb t ""); simpl in Hc; try done.
      by injection Hc as <-.
    + by destruct (String.eqb h "").
Qed.

Lemma constructor_validation_witness :
  constructor {| opt_host := Some ""; opt_token := None;
                 opt_apiVersion := None |}
  = inl (Other "GitLab host is required.").
Proof.
  apply (proj1 (constructor_validation
                  {| opt_host := Some ""; opt_token := None;
                     opt_apiVersion := None |})).
  by right.
Defined.

Lemma prefix_not_empty (p s : string) :
  p ≠ "" → String.prefix p s = true → s ≠ "".
Proof. intros Hp Hs ->. by destruct p. Qed.

(** X2.  The host of a client always begins with "http", and the constructor
    is idempotent: given the host, token and version of a client it has
    built, it builds that client again. *)
Theorem constructor_idempotent (options : ClientOptions) (c : GitLabAPI) :
  constructor options = inr c →
  startsWith "http" c.(host) = true
  ∧ constructor {| opt_host := Some c.(host); opt_token := Some c.(token);
                   opt_apiVersion := Some c.(apiVersion) |} = inr c.
Proof.
  destruct options as [h t v]. unfold constructor. simpl.
  destruct h as [h|]; [|done]. destruct t as [t|]; simpl;
    [|by destruct (String.eqb h "")].
  destruct (String.eqb_spec h "") as [|Hh]; [done|].
  destruct (String.eqb_spec t "") as [|Ht]; [done|]. simpl.
  intros [= <-]. simpl.
  assert (startsWith "http" (if startsWith "http" h then h else "https://" ++ h)
          = true) as Hhttp.
  { destruct (startsWith "http" h) eqn:E; [exact E | reflexivity]. }
  split; [exact Hhttp|].
  pose proof (prefix_not_empty "http" _ ltac:(done) Hhttp) as Hne.
  apply String.eqb_neq in Hne, Ht. rewrite Hne, Ht, Hhttp. simpl.
  assert (negb (String.eqb (if present v then default "" v else "v4") "")
          = true) as ->; [|reflexivity].
  destruct v as [v|]; simpl; [|done].
  destruct (String.eqb_spec v ""); simpl; [done|].
  by apply negb_true_iff, String.eqb_neq.
Qed.

Lemma constructor_idempotent_witness :
  startsWith "http" gitlab.(host) = true
  ∧ constructor {| opt_host := Some gitlab.(host);
                   opt_token := Some gitlab.(token);
                   opt_apiVersion := Some gitlab.(apiVersion) |} = inr gitlab.
Proof.
  apply (constructor_idempotent
           {| opt_host := Some "https://gitlab.example.com";
              opt_token := Some "test_token"; opt_apiVersion := None |}).
  reflexivity.
Defined.

(** ** The request executor, lines 22-98 *)

Section RequestMore.

Variables (this : GitLabAPI) (method endpoint : string) (data : value).
Variable options : Options.

(** X3.  Whatever [fetch] settles to, [_request] makes the same call, to
    [baseUrl + "/" + endpoint], and leaves host, token, version and base URL
    of the client alone; when [fetch] rejects, that error is rethrown as it
    is and the rate-limit fields keep their values. *)
Theorem request_client_invariant (fetched : settled Response) :
  let '(this', request, result) :=
    _request this method endpoint data options fetched in
  this'.(host) = this.(host) ∧ this'.(token) = this.(token)
  ∧ this'.(apiVersion) = this.(apiVersion)
  ∧ this'.(baseUrl) = this.(baseUrl)
  ∧ request = build_request this method endpoint data options
  ∧ request.(url) = this.(baseUrl) ++ "/" ++ endpoint
  ∧ (∀ error, fetched = Rejected error →
              this' = this ∧ result = Rejected error).
Proof.
  unfold _request. destruct fetched as [r|e].
  - destruct (ok r); simpl; [|destruct (text r)]; by repeat split.
  - do 6 (split; [reflexivity|]). by intros ? [= <-].
Qed.

(** X4.  When the status is not 2xx and reading the body fails, [_request]
    rejects with the error of that reading, not with one of the typed
    errors; the rate-limit fields have been updated all the same. *)
Theorem request_unreadable_error_body (response : Response) (error : exn) :
  ok response = false →
  response.(text) = Rejected error →
  let '(this', _, result) :=
    _request this method endpoint data options (Resolved response) in
  result = Rejected error
  ∧ this'.(rateLimitRemaining) = response.(headers) "RateLimit-Remaining"
  ∧ this'.(rateLimitReset) = response.(headers) "RateLimit-Reset".
Proof.
  intros Hok Htext. unfold _request. by rewrite Hok, Htext.
Qed.

(** X5.  [_request] resolves exactly when [fetch] resolves with a status from
    200 to 299; in every other case it rejects. *)
Theorem request_resolves_iff (fetched : settled Response) :
  let result := (_request this method endpoint data options fetched).2 in
  ((∃ envelope, result = Resolved envelope) ↔
   (∃ response, fetched = Resolved response
                ∧ 200 ≤ response.(status) < 300))
  ∧ ((∃ error, result = Rejected error) ↔
     ¬ ∃ envelope, result = Resolved envelope).
Proof.
  unfold _request. destruct fetched as [r|e]; simpl.
  - destruct (ok r) eqn:Hok; simpl.
    + split; split.
      * intros _. exists r. split; [done|]. unfold ok in Hok. lia.
      * intros _. by eexists.
      * by intros [? ?].
      * intros Hno. destruct Hno. by eexists.
    + split; split.
      * destruct (text r); by intros [? ?].
      * intros (r' & [= <-] & Hrange). unfold ok in Hok. lia.
      * destruct (text r); by intros _ [? ?].
      * intros _. destruct (text r); by eexists.
  - split; split.
    + by intros [? ?].
    + by intros (r & Hr & _).
    + by intros _ [? ?].
    + intros _. by eexists.
Qed.

Lemma get_prop_not_elem (k : string) (o : object) :
  k ∉ o.*1 → get_prop k o = None.
Proof.
  induction o as [|[k' v'] o IH]; simpl; [done|].
  intros Hk. apply not_elem_of_cons in Hk as [Hne Hk].
  apply String.eqb_neq in Hne. rewrite Hne. by apply IH.
Qed.

(** With distinct keys in [src], a property of [{ ...dst, ...src }] is that
    of [src] if [src] has it, and that of [dst] otherwise. *)
Lemma get_prop_spread (k : string) (src : object) :
  ∀ dst : object,
    NoDup src.*1 →
    get_prop k (spread dst src) =
    match get_prop k src with Some v => Some v | None => get_prop k dst end.
Proof.
  induction src as [|[k' v'] src IH]; intros dst Hnd; [done|].
  apply NoDup_cons in Hnd as [Hk' Hnd].
  change (spread dst ((k', v') :: src)) with (spread (set_prop k' v' dst) src).
  rewrite IH by done. simpl.
  destruct (String.eqb_spec k k') as [->|Hne].
  - by rewrite get_prop_not_elem, get_prop_set_prop_eq.
  - by rewrite get_prop_set_prop_ne.
Qed.

(** X7.  Every own property of the options reaches [fetch] with its value,
    [method] and [headers] included; the one exception is [body] when the
    payload is truthy. *)
Theorem request_options_pass_through (k : string) (v : value) :
  NoDup (own_properties options).*1 →
  get_prop k (own_properties options) = Some v →
  truthy data = false ∨ k ≠ "body" →
  get_prop k (build_request this method endpoint data options).(fetchOptions)
  = Some v.
Proof.
  intros Hnd Hk Hbody. unfold build_request. simpl.
  assert (get_prop k
            (spread
               [("method", Str method);
                ("headers",
                 Obj (spread
                        [("PRIVATE-TOKEN", Str this.(token));
                         ("Content-Type", Str "application/json")]
                        (default [] options.(opt_headers))))]
               (own_properties options)) = Some v) as Hsent
    by (by rewrite get_prop_spread, Hk).
  destruct (truthy data); [|exact Hsent].
  destruct Hbody as [|Hne]; [done|].
  by rewrite get_prop_set_prop_ne.
Qed.

End RequestMore.

Lemma request_client_invariant_witness :
  _request gitlab "GET" "projects" Null no_options
    (Rejected (Other "connect ECONNREFUSED"))
  = (gitlab, build_request gitlab "GET" "projects" Null no_options,
     Rejected (Other "connect ECONNREFUSED")).
Proof.
  pose proof (request_client_invariant gitlab "GET" "projects" Null
                no_options (Rejected (Other "connect ECONNREFUSED"))) as H.
  destruct (_request gitlab "GET" "projects" Null no_options
              (Rejected (Other "connect ECONNREFUSED")))
    as [[this' request] result].
  destruct H as (_ & _ & _ & _ & -> & _ & H).
  destruct (H _ eq_refl) as [-> ->]. reflexivity.
Defined.

Lemma request_unreadable_error_body_witness :
  (_request gitlab "GET" "projects" Null no_options
     (Resolved {| status := 502; headers := headers_of [];
                  json := Rejected (Other "Premature close");
                  text := Rejected (Other "Premature close") |})).2
  = Rejected (Other "Premature close").
Proof.
  pose proof (request_unreadable_error_body gitlab "GET" "projects" Null
                no_options
                {| status := 502; headers := headers_of [];
                   json := Rejected (Other "Premature close");
                   text := Rejected (Other "Premature close") |}
                (Other "Premature close") eq_refl eq_refl) as H.
  destruct (_request _ _ _ _ _ _) as [[this' request] result].
  exact (proj1 H).
Defined.

Lemma request_resolves_iff_witness :
  ∃ envelope,
    (_request gitlab "GET" "user" Null no_options
       (Resolved (json_response [] (Obj [("id", Num 456)])))).2
    = Resolved envelope.
Proof.
  apply (proj1 (request_resolves_iff gitlab "GET" "user" Null no_options
                  (Resolved (json_response [] (Obj [("id", Num 456)]))))).
  eexists. split; [reflexivity|]. simpl. lia.
Defined.

Lemma request_headers_default_witness :
  get_prop "headers"
    (build_request gitlab "GET" "projects" Null mockOptions).(fetchOptions)
  = Some (Obj [("PRIVATE-TOKEN", Str "test_token");
               ("Content-Type", Str "application/json")]).
Proof.
  exact (request_headers_default gitlab "GET" "projects" Null mockOptions
           eq_refl eq_refl).
Defined.

(** [mergeRequests.accept(123, 456, { merge_when_pipeline_succeeds: true })]
    of the test suite. *)
Lemma request_options_pass_through_witness :
  get_prop "merge_when_pipeline_succeeds"
    (build_request gitlab "PUT" "projects/123/merge_requests/456/merge" Null
       {| opt_headers := None; opt_per_page := None; opt_query := None;
          opt_rest := [("merge_when_pipeline_succeeds", Bool true)] |}
    ).(fetchOptions)
  = Some (Bool true).
Proof.
  apply request_options_pass_through.
  - apply NoDup_singleton.
  - reflexivity.
  - by left.
Defined.

(** ** The paginator, lines 100-171 *)

Lemma append_not_empty (a b : string) : a ≠ "" → a ++ b ≠ "".
Proof. by destruct a. Qed.

Lemma join_not_empty (sep : string) (l : list string) :
  l ≠ [] → Forall (λ x, x ≠ "") l → join sep l ≠ "".
Proof.
  destruct l as [|x l]; [done|]. intros _ Hl.
  apply Forall_cons in Hl as [Hx _]. unfold join. simpl.
  destruct l; [done|]. by apply append_not_empty.
Qed.

Lemma params_set_not_nil (name v : string) (ps : URLSearchParams) :
  params_set name v ps ≠ [].
Proof. destruct ps as [|[k x] ps]; simpl; [done|]. by destruct (String.eqb k name). Qed.

Lemma params_toString_not_empty (ps : URLSearchParams) :
  ps ≠ [] → params_toString ps ≠ "".
Proof.
  intros Hps. unfold params_toString. apply join_not_empty.
  - by destruct ps.
  - apply Forall_forall. intros x Hx. apply list_elem_of_In, in_map_iff in Hx.
    destruct Hx as ([k v] & <- & _). simpl.
    destruct (form_encode k); [done|done].
Qed.

Lemma fullEndpoint_eq (endpoint : string) (options : Options)
    (currentPage perPage : Z) :
  fullEndpoint endpoint options currentPage perPage
  = endpoint ++ (if includes "?" endpoint then "&" else "?")
    ++ params_toString (pagination_params options currentPage perPage).
Proof.
  unfold fullEndpoint. fold (pagination_params options currentPage perPage).
  pose proof (params_toString_not_empty
                (pagination_params options currentPage perPage)
                (params_set_not_nil _ _ _)) as Hne.
  apply String.eqb_neq in Hne. by rewrite Hne.
Qed.

(** X8.  The query string of a page request is never empty, so the full
    endpoint is always the endpoint, a separator and the query string; the
    separator is "&" when the endpoint already contains a "?", and "?"
    otherwise. *)
Theorem fullEndpoint_separator (endpoint : string) (options : Options)
    (currentPage perPage : Z) :
  params_toString (pagination_params options currentPage perPage) ≠ ""
  ∧ fullEndpoint endpoint options currentPage perPage
    = endpoint ++ (if includes "?" endpoint then "&" else "?")
      ++ params_toString (pagination_params options currentPage perPage).
Proof.
  split; [|apply fullEndpoint_eq].
  apply params_toString_not_empty, params_set_not_nil.
Qed.

Lemma named_without (name k : string) (ps : URLSearchParams) :
  named k (List.filter (λ kv, negb (String.eqb kv.1 name)) ps)
  = if String.eqb k name then [] else named k ps.
Proof.
  unfold named. induction ps as [|[k' x] ps IH]; simpl.
  - by destruct (String.eqb k name).
  - destruct (String.eqb_spec k' name) as [->|Hne]; simpl.
    + rewrite IH. destruct (String.eqb_spec k name) as [->|Hk]; [done|].
      apply not_eq_sym, String.eqb_neq in Hk. by rewrite Hk.
    + destruct (String.eqb_spec k' k) as [->|Hk]; simpl.
      * rewrite IH. apply String.eqb_neq in Hne. by rewrite Hne.
      * rewrite IH. by destruct (String.eqb k name).
Qed.

Lemma named_params_set_eq (name v : string) (ps : URLSearchParams) :
  named name (params_set name v ps) = [(name, v)].
Proof.
  induction ps as [|[k x] ps IH]; simpl.
  - unfold named. simpl. by rewrite String.eqb_refl.
  - destruct (String.eqb_spec k name) as [->|Hne].
    + unfold named at 1. simpl. rewrite String.eqb_refl.
      fold (named name (List.filter (λ kv, negb (String.eqb kv.1 name)) ps)).
      by rewrite named_without, String.eqb_refl.
    + unfold named at 1. simpl. apply String.eqb_neq in Hne. rewrite Hne.
      exact IH.
Qed.

Lemma named_params_set_ne (name k v : string) (ps : URLSearchParams) :
  k ≠ name → named k (params_set name v ps) = named k ps.
Proof.
  intros Hk. induction ps as [|[k' x] ps IH]; simpl.
  - unfold named. simpl. apply not_eq_sym, String.eqb_neq in Hk.
    by rewrite Hk.
  - destruct (String.eqb_spec k' name) as [->|Hne].
    + unfold named at 1 3. simpl.
      apply not_eq_sym, String.eqb_neq in Hk. rewrite Hk.
      fold (named k (List.filter (λ kv, negb (String.eqb kv.1 name)) ps)).
      fold (named k ps).
      rewrite named_without. apply String.eqb_neq, not_eq_sym in Hk.
      apply String.eqb_neq in Hk. by rewrite Hk.
    + unfold named at 1 3. simpl. fold (named k (params_set name v ps)).
      fold (named k ps). by rewrite IH.
Qed.

(** X9.  The query of a page request has exactly one [page] parameter, the
    current page number, and exactly one [per_page] parameter, the page
    size: values that the caller put under these names in [options.query]
    are replaced.  The caller's parameters of any other name are all kept,
    in their order. *)
Theorem pagination_params_named (options : Options) (currentPage perPage : Z) :
  named "page" (pagination_params options currentPage perPage)
  = [("page", toString currentPage)]
  ∧ named "per_page" (pagination_params options currentPage perPage)
    = [("per_page", toString perPage)]
  ∧ (∀ k : string, k ≠ "page" → k ≠ "per_page" →
       named k (pagination_params options currentPage perPage)
       = named k (default [] options.(opt_query))).
Proof.
  unfold pagination_params. split; [|split].
  - by rewrite named_params_set_ne, named_params_set_eq.
  - by rewrite named_params_set_eq.
  - intros k H1 H2. by rewrite !named_params_set_ne.
Qed.

Lemma pagination_params_named_witness :
  named "sort"
    (pagination_params
       {| opt_headers := None; opt_per_page := Some 20;
          opt_query := Some [("order_by", "name"); ("page", "7");
                             ("sort", "asc")];
          opt_rest := [] |} 1 20)
  = [("sort", "asc")].
Proof.
  apply (proj2 (proj2 (pagination_params_named
                         {| opt_headers := None; opt_per_page := Some 20;
                            opt_query := Some [("order_by", "name");
                                               ("page", "7");
                                               ("sort", "asc")];
                            opt_rest := [] |} 1 20))); done.
Defined.

Section Runs.

Variables (method endpoint : string) (data : value) (options : Options).
Variable perPage : Z.

(** The call made by one turn of the loop, and what the turn leaves of the
    client's identity. *)
Lemma iteration_request (this this' : GitLabAPI) (st : Loop.state)
    (fetched : settled Response) (request : Request) (step : Step) :
  iteration this method endpoint data options perPage st fetched
  = (this', request, step) →
  this'.(token) = this.(token) ∧ this'.(baseUrl) = this.(baseUrl)
  ∧ request
    = build_request this method
        (fullEndpoint endpoint options st.(Loop.currentPage) perPage)
        data options
  ∧ this' = (_request this method
               (fullEndpoint endpoint options st.(Loop.currentPage) perPage)
               data options fetched).1.1.
Proof.
  unfold iteration, _request. destruct fetched as [r|e]; simpl.
  - destruct (ok r); simpl.
    + destruct (read_body r); try destruct (termination_check _ _ _ _);
        by intros [= <- <- _].
    + destruct (text r); by intros [= <- <- _].
  - by intros [= <- <- _].
Qed.

(** What a turn of the loop was given, read off how it ended. *)
Lemma iteration_inv (this this' : GitLabAPI) (st : Loop.state)
    (fetched : settled Response) (request : Request) (step : Step) :
  iteration this method endpoint data options perPage st fetched
  = (this', request, step) →
  match step with
  | Continue st' =>
      ∃ r a, fetched = Resolved r ∧ page_of r a ∧ st' = taken_in st r a
             ∧ termination_check (Z.of_nat (length a)) perPage
                 (taken_in st r a).(Loop.totalPages) st.(Loop.currentPage)
               = NextPage
  | Break st' =>
      ∃ r a, fetched = Resolved r ∧ page_of r a ∧ st' = taken_in st r a
             ∧ termination_check (Z.of_nat (length a)) perPage
                 (taken_in st r a).(Loop.totalPages) st.(Loop.currentPage)
               ≠ NextPage
  | Return responseData =>
      ∃ r, fetched = Resolved r ∧ ok r = true
           ∧ responseData = read_body r ∧ isArray responseData = false
  | Throw error =>
      fetched = Rejected error
      ∨ ∃ r, fetched = Resolved r ∧ ok r = false
             ∧ (r.(text) = Rejected error
                ∨ ∃ body, r.(text) = Resolved body
                          ∧ error = Typed (error_for r.(status) body
                                             request.(url)))
  end.
Proof.
  unfold iteration, _request. destruct fetched as [r|e]; simpl.
  - destruct (ok r) eqn:Hok; simpl.
    + destruct (read_body r) as [ | | | |a| ] eqn:Hbody;
        try (intros [= <- <- <-]; exists r; by rewrite Hbody).
      destruct (termination_check _ _ _ _) eqn:Hcheck;
        intros [= <- <- <-]; exists r, a; unfold taken_in; simpl;
        rewrite Hcheck; by repeat split.
    + destruct (text r) as [body|error] eqn:Htext; intros [= <- <- <-];
        right; exists r; (split; [done|]); (split; [done|]).
      * right. by exists body.
      * by left.
  - intros [= <- <- <-]. by left.
Qed.

Lemma build_request_same (this this' : GitLabAPI) (e : string) :
  this'.(token) = this.(token) → this'.(baseUrl) = this.(baseUrl) →
  build_request this' method e data options
  = build_request this method e data options.
Proof. intros Ht Hb. unfold build_request. by rewrite Ht, Hb. Qed.

(** The call number [k] of the loop, counted from 0, is the call of
    [_request] for page [currentPage + k]. *)
Lemma loop_requests (answers : list (settled Response)) :
  ∀ (k : nat) (this : GitLabAPI) (st : Loop.state) (request : Request),
    (loop this method endpoint data options perPage st answers).(requests)
      !! k = Some request →
    request
    = build_request this method
        (fullEndpoint endpoint options (st.(Loop.currentPage) + Z.of_nat k)
           perPage)
        data options.
Proof.
  induction answers as [|fetched answers IH]; intros k this st request Hk.
  - destruct k as [|k]; simpl in Hk; [|done].
    injection Hk as <-. by rewrite Z.add_0_r.
  - simpl in Hk.
    destruct (iteration this method endpoint data options perPage st fetched)
      as [[this1 request1] step] eqn:Hit.
    pose proof (iteration_request _ _ _ _ _ _ Hit) as (Ht & Hb & Hr & _).
    destruct k as [|k].
    + assert (request = request1) as ->
        by (destruct step; simpl in Hk; congruence).
      by rewrite Z.add_0_r.
    + destruct step as [st1| | |]; simpl in Hk; try done.
      apply iteration_continue in Hit.
      rewrite (IH k this1 st1 request Hk), Hit.
      rewrite (build_request_same this this1) by done.
      by replace (Loop.currentPage st + 1 + Z.of_nat k)
        with (Loop.currentPage st + Z.of_nat (S k)) by lia.
Qed.

Lemma loop_requests_not_nil (answers : list (settled Response))
    (this : GitLabAPI) (st : Loop.state) :
  (1 ≤ length (loop this method endpoint data options perPage st answers).(requests))%nat.
Proof.
  destruct answers as [|fetched answers]; simpl; [lia|].
  destruct (iteration _ _ _ _ _ _ _ _) as [[this1 request1] step].
  destruct step; simpl; lia.
Qed.

(** Every run of the loop is a number of pages that were taken in and sent
    the loop on, followed either by a call still waiting for its answer or
    by one last turn that ended the loop. *)
Lemma loop_decompose (answers : list (settled Response)) :
  ∀ (this : GitLabAPI) (st : Loop.state),
    let run := loop this method endpoint data options perPage st answers in
    ∃ (pages : list Response) (arrays : list (list value))
      (this' : GitLabAPI) (st' : Loop.state),
      Forall2 page_of pages arrays
      ∧ length run.(requests) = S (length pages)
      ∧ this'.(baseUrl) = this.(baseUrl)
      ∧ st'.(Loop.allItems) = (st.(Loop.allItems) ++ concat arrays)%list
      ∧ st'.(Loop.currentPage)
        = st.(Loop.currentPage) + Z.of_nat (length pages)
      ∧ st'.(Loop.totalPages)
        = known_after "X-Total-Pages" st.(Loop.totalPages) pages
      ∧ st'.(Loop.totalItems)
        = known_after "X-Total" st.(Loop.totalItems) pages
      ∧ ((answers = map Resolved pages ∧ run.(outcome) = Pending)
         ∨ ∃ fetched rest this'' request step,
             answers = (map Resolved pages ++ fetched :: rest)%list
             ∧ iteration this' method endpoint data options perPage st'
                 fetched = (this'', request, step)
             ∧ run.(outcome)
               = match step with
                 | Continue _ => Pending
                 | Break s => Returned (Collection (envelope_of s))
                 | Return v => Returned (Payload v)
                 | Throw e => Thrown e
                 end
             ∧ ∀ s, step ≠ Continue s).
Proof.
  induction answers as [|fetched answers IH]; intros this st run.
  - exists [], [], this, st. subst run. simpl. rewrite app_nil_r.
    repeat split; try done; try lia. by left.
  - subst run. simpl.
    destruct (iteration this method endpoint data options perPage st fetched)
      as [[this1 request1] step] eqn:Hit.
    destruct step as [st1|st1|v|e].
    + pose proof (iteration_inv _ _ _ _ _ _ Hit) as (r & a & -> & Hpage & -> & _).
      pose proof (iteration_request _ _ _ _ _ _ Hit) as (_ & Hb1 & _).
      destruct (IH this1 (taken_in st r a))
        as (pages & arrays & this' & st' & Hp & Hn & Hb & Hi & Hc & Htp & Hti
            & Hend).
      exists (r :: pages), (a :: arrays), this', st'. simpl in *.
      split; [by constructor|]. split; [by rewrite Hn|].
      split; [congruence|].
      split; [by rewrite Hi, <- app_assoc|]. split; [lia|].
      split; [done|]. split; [done|].
      destruct Hend as [[-> Ho]|(f & rest & this'' & req & step & -> & Hstep & Ho & Hs)].
      * by left.
      * right. by exists f, rest, this'', req, step.
    + exists [], [], this, st. simpl. rewrite app_nil_r.
      repeat split; try done; try lia.
      right. by exists fetched, answers, this1, request1, (Break st1).
    + exists [], [], this, st. simpl. rewrite app_nil_r.
      repeat split; try done; try lia.
      right. by exists fetched, answers, this1, request1, (Return v).
    + exists [], [], this, st. simpl. rewrite app_nil_r.
      repeat split; try done; try lia.
      right. by exists fetched, answers, this1, request1, (Throw e).
Qed.

End Runs.

Section PaginatedRuns.

Variables (this : GitLabAPI) (method endpoint : string) (data : value).
Variable options : Options.

(** X10.  The calls of a paginated run are those of [_request] for pages 1,
    2, 3, ... in this order: call number [k], counted from 0, goes to
    [baseUrl + "/" +] the full endpoint of page [k + 1], with the same method,
    headers, body and other options every time. *)
Theorem paginate_requests (answers : list (settled Response)) (k : nat)
    (request : Request) :
  (_paginatedRequest this method endpoint data options answers).(requests)
    !! k = Some request →
  request
  = build_request this method
      (fullEndpoint endpoint options (Z.of_nat k + 1) (perPage_of options))
      data options
  ∧ request.(url)
    = this.(baseUrl) ++ "/"
      ++ fullEndpoint endpoint options (Z.of_nat k + 1) (perPage_of options)
  ∧ request.(fetchOptions)
    = (build_request this method endpoint data options).(fetchOptions).
Proof.
  intros Hk. unfold _paginatedRequest in Hk.
  apply loop_requests in Hk. simpl in Hk.
  replace (1 + Z.of_nat k) with (Z.of_nat k + 1) in Hk by lia.
  by subst request.
Qed.

(** X11.  Whenever a paginated run returns an envelope, the answers it used
    are all pages, one per call; [items] is their arrays end to end,
    [currentPage] is their number, [totalPages] and [totalItems] are the
    counts of the most recent X-Total-Pages and X-Total headers that were
    present and not empty ([null] if there was none), and [headers] are
    those of the last page. *)
Theorem paginate_envelope (answers : list (settled Response))
    (envelope : CollectionEnvelope.t) :
  let run := _paginatedRequest this method endpoint data options answers in
  run.(outcome) = Returned (Collection envelope) →
  ∃ (pages : list Response) (arrays : list (list value)),
    take (length run.(requests)) answers = map Resolved pages
    ∧ Forall2 page_of pages arrays
    ∧ length pages = length run.(requests)
    ∧ envelope.(CollectionEnvelope.items) = concat arrays
    ∧ envelope.(CollectionEnvelope.currentPage) = Z.of_nat (length pages)
    ∧ envelope.(CollectionEnvelope.totalPages)
      = known_after "X-Total-Pages" None pages
    ∧ envelope.(CollectionEnvelope.totalItems)
      = known_after "X-Total" None pages
    ∧ envelope.(CollectionEnvelope.headers) = headers <$> last pages.
Proof.
  intros run Hout. subst run. unfold _paginatedRequest in *.
  destruct (loop_decompose method endpoint data options (perPage_of options)
              answers this initial)
    as (pages & arrays & this' & st' & Hp & Hn & _ & Hi & Hc & Htp & Hti
        & Hend).
  destruct Hend as [[_ Ho]|(f & rest & this'' & req & step & -> & Hstep & Ho & _)];
    [congruence|].
  rewrite Ho in Hout. destruct step as [s|s|v|e]; try done.
  injection Hout as <-.
  apply iteration_inv in Hstep as (r & a & -> & Hpage & -> & _).
  exists (pages ++ [r])%list, (arrays ++ [a])%list.
  rewrite Hn, length_app, map_app. simpl.
  split.
  { rewrite (cons_middle (Resolved r)), app_assoc.
    apply take_app_length'. rewrite length_app, length_map. simpl. lia. }
  split; [by apply Forall2_app; [|constructor]|].
  split; [lia|].
  split; [by rewrite Hi, concat_app; simpl; rewrite app_nil_r|].
  split; [rewrite Hc; simpl; lia|].
  unfold known_after in *. rewrite !fold_left_app, last_snoc. simpl.
  by rewrite Htp, Hti.
Qed.

(** X12.  Whenever a paginated run returns a bare payload, the last answer it
    used is a 2xx response whose payload is that value and is not an array;
    the answers before it were pages, and none of their elements is
    returned. *)
Theorem paginate_payload (answers : list (settled Response))
    (responseData : value) :
  let run := _paginatedRequest this method endpoint data options answers in
  run.(outcome) = Returned (Payload responseData) →
  ∃ (pages : list Response) (arrays : list (list value)) (r : Response),
    take (length run.(requests)) answers = map Resolved (pages ++ [r])%list
    ∧ Forall2 page_of pages arrays
    ∧ ok r = true
    ∧ read_body r = responseData
    ∧ isArray responseData = false.
Proof.
  intros run Hout. subst run. unfold _paginatedRequest in *.
  destruct (loop_decompose method endpoint data options (perPage_of options)
              answers this initial)
    as (pages & arrays & this' & st' & Hp & Hn & _ & _ & _ & _ & _ & Hend).
  destruct Hend as [[_ Ho]|(f & rest & this'' & req & step & -> & Hstep & Ho & _)];
    [congruence|].
  rewrite Ho in Hout. destruct step as [s|s|v|e]; try done.
  injection Hout as <-.
  apply iteration_inv in Hstep as (r & -> & Hok & -> & Hna).
  exists pages, arrays, r. rewrite Hn, map_app. simpl.
  split; [|done].
  rewrite (cons_middle (Resolved r)), app_assoc.
  apply take_app_length'. rewrite length_app, length_map. simpl. lia.
Qed.

(** X13.  Whenever a paginated run throws, the answers before the last one it
    used were pages and the error is the one of the last call: the rejection
    of [fetch], the failure to read the body of a response that is not 2xx,
    or the typed error for its status and body, carrying the URL of that
    page's request.  Nothing of the pages fetched before is handed back. *)
Theorem paginate_thrown (answers : list (settled Response)) (error : exn) :
  let run := _paginatedRequest this method endpoint data options answers in
  run.(outcome) = Thrown error →
  ∃ (pages : list Response) (arrays : list (list value))
    (fetched : settled Response),
    take (length run.(requests)) answers
    = (map Resolved pages ++ [fetched])%list
    ∧ Forall2 page_of pages arrays
    ∧ (fetched = Rejected error
       ∨ ∃ r, fetched = Resolved r ∧ ok r = false
              ∧ (r.(text) = Rejected error
                 ∨ ∃ body,
                     r.(text) = Resolved body
                     ∧ error
                       = Typed (error_for r.(status) body
                                  (this.(baseUrl) ++ "/"
                                   ++ fullEndpoint endpoint options
                                        (Z.of_nat (length pages) + 1)
                                        (perPage_of options))))).
Proof.
  intros run Hout. subst run. unfold _paginatedRequest in *.
  destruct (loop_decompose method endpoint data options (perPage_of options)
              answers this initial)
    as (pages & arrays & this' & st' & Hp & Hn & Hb & _ & Hc & _ & _ & Hend).
  destruct Hend as [[_ Ho]|(f & rest & this'' & req & step & -> & Hstep & Ho & _)];
    [congruence|].
  rewrite Ho in Hout. destruct step as [s|s|v|e]; try done.
  injection Hout as <-.
  pose proof (iteration_request _ _ _ _ _ _ _ _ _ _ _ Hstep) as (_ & _ & Hreq & _).
  apply iteration_inv in Hstep.
  exists pages, arrays, f. rewrite Hn.
  split.
  { rewrite (cons_middle f), app_assoc.
    apply take_app_length'. rewrite length_app, length_map. simpl. lia. }
  split; [done|].
  destruct Hstep as [->|(r & -> & Hok & Htext)]; [by left|].
  right. exists r. split; [done|]. split; [done|].
  destruct Htext as [Htext|(body & Htext & ->)]; [by left|].
  right. exists body. split; [done|].
  rewrite Hreq. simpl. rewrite Hb, Hc. simpl.
  by replace (1 + Z.of_nat (length pages))
    with (Z.of_nat (length pages) + 1) by lia.
Qed.

(** What one call of [_request] leaves of the client. *)
Lemma request_client_fields (c : GitLabAPI) (e : string)
    (fetched : settled Response) :
  let c1 := (_request c method e data options fetched).1.1 in
  c1.(host) = c.(host) ∧ c1.(token) = c.(token)
  ∧ c1.(apiVersion) = c.(apiVersion) ∧ c1.(baseUrl) = c.(baseUrl)
  ∧ c1.(rateLimitRemaining)
    = match fetched with
      | Resolved r => r.(headers) "RateLimit-Remaining"
      | Rejected _ => c.(rateLimitRemaining)
      end
  ∧ c1.(rateLimitReset)
    = match fetched with
      | Resolved r => r.(headers) "RateLimit-Reset"
      | Rejected _ => c.(rateLimitReset)
      end.
Proof.
  unfold _request. destruct fetched as [r|err]; [|done].
  destruct (ok r); [|destruct (text r)]; done.
Qed.

Lemma loop_client (perPage : Z) (answers : list (settled Response)) :
  ∀ (c : GitLabAPI) (st : Loop.state),
    let run := loop c method endpoint data options perPage st answers in
    let received := responses_of (take (length run.(requests)) answers) in
    run.(client).(rateLimitRemaining)
    = match last received with
      | Some r => r.(headers) "RateLimit-Remaining"
      | None => c.(rateLimitRemaining)
      end
    ∧ run.(client).(rateLimitReset)
      = match last received with
        | Some r => r.(headers) "RateLimit-Reset"
        | None => c.(rateLimitReset)
        end
    ∧ run.(client).(host) = c.(host)
    ∧ run.(client).(token) = c.(token)
    ∧ run.(client).(apiVersion) = c.(apiVersion)
    ∧ run.(client).(baseUrl) = c.(baseUrl).
Proof.
  induction answers as [|fetched answers IH]; intros c st; [done|].
  cbn zeta. simpl.
  destruct (iteration c method endpoint data options perPage st fetched)
    as [[c1 request1] step] eqn:Hit.
  pose proof (iteration_request _ _ _ _ _ _ _ _ _ _ _ Hit) as (_ & _ & _ & Hc).
  pose proof (request_client_fields c
                (fullEndpoint endpoint options st.(Loop.currentPage) perPage)
                fetched) as Hfields.
  cbn zeta in Hfields. rewrite <- Hc in Hfields.
  destruct Hfields as (Hh & Ht & Ha & Hb & Hrem & Hreset).
  destruct step as [st1|st1|v|e]; simpl.
  - apply iteration_inv in Hit as (r & a & -> & _).
    destruct (IH c1 st1) as (H1 & H2 & H3 & H4 & H5 & H6).
    cbn zeta in H1, H2. simpl. rewrite last_cons.
    rewrite H1, H2, H3, H4, H5, H6, Hrem, Hreset.
    by destruct (last (responses_of _)).
  - rewrite ?take_0. destruct fetched as [r|err]; simpl; by rewrite Hrem, Hreset.
  - rewrite ?take_0. destruct fetched as [r|err]; simpl; by rewrite Hrem, Hreset.
  - rewrite ?take_0. destruct fetched as [r|err]; simpl; by rewrite Hrem, Hreset.
Qed.

(** X14.  After a paginated run, however it ended, the rate-limit fields of
    the client are those of the last response that the run received: the
    headers of the last answer of [fetch] that was a response, also when a
    later call was rejected by [fetch]; without any response they keep the
    values they had.  Host, token, version and base URL are unchanged. *)
Theorem paginate_rate_limit (answers : list (settled Response)) :
  let run := _paginatedRequest this method endpoint data options answers in
  let received := responses_of (take (length run.(requests)) answers) in
  run.(client).(rateLimitRemaining)
  = match last received with
    | Some r => r.(headers) "RateLimit-Remaining"
    | None => this.(rateLimitRemaining)
    end
  ∧ run.(client).(rateLimitReset)
    = match last received with
      | Some r => r.(headers) "RateLimit-Reset"
      | None => this.(rateLimitReset)
      end
  ∧ run.(client).(host) = this.(host)
  ∧ run.(client).(token) = this.(token)
  ∧ run.(client).(apiVersion) = this.(apiVersion)
  ∧ run.(client).(baseUrl) = this.(baseUrl).
Proof. apply loop_client. Qed.

End PaginatedRuns.

Section Endless.

Variables (this : GitLabAPI) (method endpoint : string) (data : value).
Variable options : Options.

(** Pages at least as long as the page size that the header test does not
    stop are all fetched, and the loop goes on after them. *)
Lemma loop_long_pages (perPage : Z) (pages : list Response) :
  ∀ (arrays : list (list value)) (rest : list (settled Response))
    (c : GitLabAPI) (st : Loop.state),
    Forall2 (λ r a, page_of r a ∧ perPage ≤ Z.of_nat (length a))
      pages arrays →
    no_header_stop st.(Loop.totalPages) st.(Loop.currentPage) pages = true →
    ∃ (c' : GitLabAPI) (st' : Loop.state),
      (loop c method endpoint data options perPage st
         (map Resolved pages ++ rest)%list).(outcome)
      = (loop c' method endpoint data options perPage st' rest).(outcome)
      ∧ length (loop c method endpoint data options perPage st
                  (map Resolved pages ++ rest)%list).(requests)
        = (length pages
           + length (loop c' method endpoint data options perPage st'
                       rest).(requests))%nat.
Proof.
  induction pages as [|r pages IH]; intros arrays rest c st Hpages Hstop.
  - exists c, st. done.
  - apply Forall2_cons_inv_l in Hpages
      as (a & arrays' & [Hpage Hlen] & Hpages & ->).
    simpl in Hstop. apply andb_true_iff in Hstop as [Hhere Hstop].
    destruct (iteration_page method endpoint data options perPage c st r a
                Hpage) as (c1 & request & Hit).
    simpl in Hit. apply negb_true_iff in Hhere.
    unfold termination_check in Hit.
    apply Z.ltb_ge in Hlen. rewrite Hlen, Hhere in Hit.
    simpl. rewrite Hit.
    match type of Hit with _ = (_, _, Continue ?st1) =>
      destruct (IH arrays' rest c1 st1 Hpages Hstop) as (c' & st' & Ho & Hn)
    end.
    exists c', st'. simpl. by rewrite Ho, Hn.
Qed.

(** X15.  As long as every answer is a page with at least [per_page]
    elements and no X-Total-Pages count stops the loop, the run does not
    return: after [n] such pages it has made call [n + 1] and waits for its
    answer. *)
Theorem paginate_keeps_going (pages : list Response)
    (arrays : list (list value)) :
  Forall2 (λ r a, page_of r a ∧ perPage_of options ≤ Z.of_nat (length a))
    pages arrays →
  no_header_stop None 1 pages = true →
  let run :=
    _paginatedRequest this method endpoint data options (map Resolved pages) in
  run.(outcome) = Pending
  ∧ length run.(requests) = S (length pages).
Proof.
  intros Hpages Hstop run. subst run. unfold _paginatedRequest.
  destruct (loop_long_pages (perPage_of options) pages arrays [] this initial
              Hpages Hstop) as (c' & st' & Ho & Hn).
  rewrite app_nil_r in Ho, Hn. rewrite Ho, Hn. simpl. split; [done|lia].
Qed.

Lemma no_header_stop_absent (pages : list Response) (page : Z) :
  Forall (λ r, r.(headers) "X-Total-Pages" = None) pages →
  no_header_stop None page pages = true.
Proof.
  revert page. induction pages as [|r pages IH]; intros page Hpages; [done|].
  apply Forall_cons in Hpages as [Hr Hpages]. simpl. rewrite Hr. simpl.
  by apply IH.
Qed.

(** X16.  With a negative [per_page] no array is ever short, so without an
    X-Total-Pages header nothing ends the loop: however short or empty the
    pages are, the run asks for the next one. *)
Theorem paginate_negative_per_page (n : Z) (pages : list Response)
    (arrays : list (list value)) :
  options.(opt_per_page) = Some n → n < 0 →
  Forall2 page_of pages arrays →
  Forall (λ r, r.(headers) "X-Total-Pages" = None) pages →
  let run :=
    _paginatedRequest this method endpoint data options (map Resolved pages) in
  run.(outcome) = Pending
  ∧ length run.(requests) = S (length pages).
Proof.
  intros Hn Hneg Hpages Hnone run. subst run. unfold _paginatedRequest.
  assert (perPage_of options = n) as Hp.
  { unfold perPage_of. rewrite Hn. simpl.
    destruct (Z.eqb_spec n 0); [lia|done]. }
  destruct (loop_long_pages (perPage_of options) pages arrays [] this initial)
    as (c' & st' & Ho & Hlen).
  - eapply Forall2_impl; [exact Hpages|]. intros r a Hra. split; [done|lia].
  - by apply no_header_stop_absent.
  - rewrite app_nil_r in Ho, Hlen. rewrite Ho, Hlen. simpl. split; [done|lia].
Qed.

End Endless.

(** X17.  After a page has been taken in, the loop goes on to the next page
    exactly when the array is not shorter than the page size and the known
    total-pages count is [null], [NaN], zero or greater than the current
    page. *)
Theorem termination_check_next (len perPage : Z) (known : option jsnum)
    (page : Z) :
  termination_check len perPage known page = NextPage
  ↔ perPage ≤ len ∧ (∀ n, known = Some (Int n) → n = 0 ∨ page < n).
Proof.
  unfold termination_check.
  destruct (Z.ltb_spec len perPage) as [Hlt|Hge].
  - split; [done|]. intros [? _]. lia.
  - destruct known as [[|n]|]; simpl.
    + split; [|done]. intros _. split; [done|]. by intros n [=].
    + destruct (Z.eqb_spec n 0) as [->|Hn]; simpl.
      * split; [|done]. intros _. split; [done|]. intros ? [= <-]. by left.
      * destruct (Z.leb_spec n page) as [Hle|Hgt]; split; try done.
        -- intros [_ Hk]. destruct (Hk n eq_refl); lia.
        -- intros _. split; [done|]. intros ? [= <-]. by right.
    + split; [|done]. intros _. split; [done|]. by intros n [=].
Qed.

Lemma termination_check_next_witness :
  termination_check 2 2 (Some (Int 0)) 5 = NextPage.
Proof.
  apply termination_check_next. split; [lia|]. intros n [= <-]. by left.
Defined.

(** ** Header counts: [toString] and [parseInt] *)

Lemma digit_cases (m : N) :
  (m < 10)%N →
  (m = 0 ∨ m = 1 ∨ m = 2 ∨ m = 3 ∨ m = 4 ∨ m = 5 ∨ m = 6 ∨ m = 7 ∨ m = 8
   ∨ m = 9)%N.
Proof. lia. Qed.

Lemma digit_value_pretty (m : N) :
  (m < 10)%N → digit_value (pretty_N_char m) = Some (Z.of_N m).
Proof.
  intros Hm. apply digit_cases in Hm.
  repeat (destruct Hm as [->|Hm]; [reflexivity|]). by subst.
Qed.

(** Reading the digits that [pretty_N_go] writes gives the number back. *)
Lemma read_digits_pretty_go (x : N) :
  ∃ k : Z, 0 ≤ k ∧
    ∀ (acc : Z) (seen : bool) (s : string),
      read_digits acc seen (pretty_N_go x s)
      = read_digits (acc * 10 ^ k + Z.of_N x)
          (seen || bool_decide (0 < x)%N) s.
Proof.
  induction (N.lt_wf_0 x) as [x _ IH].
  destruct (decide (x = 0%N)) as [->|Hx].
  - exists 0. split; [lia|]. intros acc seen s.
    rewrite pretty_N_go_0, orb_false_r. f_equal. lia.
  - destruct (IH (x `div` 10)%N) as (k & Hk & Hread).
    { apply N.div_lt; lia. }
    exists (k + 1). split; [lia|]. intros acc seen s.
    rewrite pretty_N_go_step by lia. rewrite Hread. simpl.
    rewrite digit_value_pretty by (apply N.mod_lt; lia).
    rewrite bool_decide_eq_true_2 by lia. rewrite orb_true_r.
    f_equal. rewrite Z.pow_add_r, Z.pow_1_r by lia.
    pose proof (N.div_mod x 10 ltac:(lia)) as Hdm.
    assert (Z.of_N x = 10 * Z.of_N (x `div` 10) + Z.of_N (x `mod` 10)) as ->
      by lia.
    ring.
Qed.

(** What [pretty_N_go] writes for a positive number begins with a digit. *)
Lemma pretty_go_head (x : N) :
  ∀ s : string, (0 < x)%N →
    ∃ (m : N) (s' : string),
      (m < 10)%N ∧ pretty_N_go x s = String (pretty_N_char m) s'.
Proof.
  induction (N.lt_wf_0 x) as [x _ IH]. intros s Hx.
  rewrite pretty_N_go_step by done.
  destruct (decide (x `div` 10 = 0)%N) as [->|Hq].
  - rewrite pretty_N_go_0. exists (x `mod` 10)%N, s.
    split; [apply N.mod_lt; lia | done].
  - apply IH; [apply N.div_lt; lia | by apply N.neq_0_lt_0].
Qed.

Lemma parseInt10_digits (x : N) :
  (0 < x)%N →
  trim_start (pretty_N_go x "") = pretty_N_go x ""
  ∧ (∃ c s', pretty_N_go x "" = String c s'
             ∧ is_white_space c = false ∧ c ≠ "-"%char ∧ c ≠ "+"%char)
  ∧ read_digits 0 false (pretty_N_go x "") = (Z.of_N x, true).
Proof.
  intros Hx.
  destruct (pretty_go_head x "" Hx) as (m & s' & Hm & Hhead).
  assert (is_white_space (pretty_N_char m) = false
          ∧ pretty_N_char m ≠ "-"%char ∧ pretty_N_char m ≠ "+"%char)
    as (Hws & Hminus & Hplus).
  { apply digit_cases in Hm.
    repeat (destruct Hm as [->|Hm]; [by repeat split|]). subst.
    by repeat split. }
  split; [|split].
  - rewrite Hhead. simpl. by rewrite Hws.
  - by exists (pretty_N_char m), s'.
  - destruct (read_digits_pretty_go x) as (k & _ & ->).
    rewrite bool_decide_eq_true_2 by done. simpl. f_equal; lia.
Qed.

Lemma parseInt10_pretty_pos (p : positive) :
  parseInt10 (pretty_N_go (N.pos p) "") = Int (Z.pos p)
  ∧ parseInt10 (String "-" (pretty_N_go (N.pos p) "")) = Int (Z.neg p).
Proof.
  destruct (parseInt10_digits (N.pos p) ltac:(lia))
    as (Htrim & (c & s' & Hhead & Hws & Hminus & Hplus) & Hread).
  split.
  - unfold parseInt10. rewrite Htrim.
    assert (match pretty_N_go (N.pos p) "" with
            | String "-" t' => (-1, t')
            | String "+" t' => (1, t')
            | _ => (1, pretty_N_go (N.pos p) "")
            end = (1, pretty_N_go (N.pos p) "")) as ->.
    { rewrite Hhead.
      destruct c as [[] [] [] [] [] [] [] []]; try reflexivity; done. }
    rewrite Hread. f_equal.
  - unfold parseInt10.
    change (trim_start (String "-" (pretty_N_go (N.pos p) "")))
      with (String "-" (pretty_N_go (N.pos p) "")).
    cbv iota beta. rewrite Hread. f_equal.
Qed.

(** X18.  Within the integers that a JavaScript number holds exactly, those
    between [-(2^53)] and [2^53], a count written in decimal is read back as
    that count: [parseInt] of the decimal text of such an integer is the
    integer, and a header holding that text replaces whatever count was
    known. *)
Theorem parseInt10_toString (n : Z) :
  - 2 ^ 53 < n < 2 ^ 53 →
  parseInt10 (toString n) = Int n
  ∧ ∀ known, parse_header known (Some (toString n)) = Some (Int n).
Proof.
  intros _.
  assert (parseInt10 (toString n) = Int n) as Hparse.
  { unfold toString, pretty, pretty_Z. destruct n as [|p|p]; [done|..].
    - unfold pretty, pretty_positive, pretty, pretty_N.
      rewrite decide_False by done. apply parseInt10_pretty_pos.
    - unfold pretty, pretty_positive, pretty, pretty_N.
      rewrite decide_False by done. apply parseInt10_pretty_pos. }
  split; [exact Hparse|]. intros known. unfold parse_header.
  destruct (String.eqb_spec (toString n) "") as [E|_]; [|by rewrite Hparse].
  rewrite E in Hparse. discriminate Hparse.
Qed.

(** ** Resource methods *)

(** The URL of call number [k] of a paginated run, by whether the endpoint
    already has a query. *)
Lemma paginated_request_url (this : GitLabAPI) (method endpoint : string)
    (data : value) (options : Options) (answers : list (settled Response))
    (k : nat) (request : Request) :
  (_paginatedRequest this method endpoint data options answers).(requests)
    !! k = Some request →
  request.(url)
  = this.(baseUrl) ++ "/"
    ++ (endpoint ++ (if includes "?" endpoint then "&" else "?")
        ++ params_toString
             (pagination_params options (Z.of_nat k + 1) (perPage_of options))).
Proof.
  intros Hk. unfold _paginatedRequest in Hk. apply loop_requests in Hk.
  subst request. simpl. rewrite fullEndpoint_eq.
  by replace (1 + Z.of_nat k) with (Z.of_nat k + 1) by lia.
Qed.

(** X19.  The three searches put the encoded query into the endpoint, which
    therefore has a "?" already: the paging parameters of every call follow
    after an "&". *)
Theorem search_urls (this : GitLabAPI) (query : string) (options : Options)
    (answers : list (settled Response)) (k : nat) (request : Request) :
  let paging :=
    params_toString
      (pagination_params options (Z.of_nat k + 1) (perPage_of options)) in
  ((search.projects this query options answers).(requests) !! k
   = Some request →
   request.(url)
   = this.(baseUrl) ++ "/"
     ++ (("search?scope=projects&search=" ++ encodeURIComponent query)
         ++ "&" ++ paging))
  ∧ ((search.groups this query options answers).(requests) !! k
     = Some request →
     request.(url)
     = this.(baseUrl) ++ "/"
       ++ (("search?scope=groups&search=" ++ encodeURIComponent query)
           ++ "&" ++ paging))
  ∧ ((search.users this query options answers).(requests) !! k
     = Some request →
     request.(url)
     = this.(baseUrl) ++ "/"
       ++ (("search?scope=users&search=" ++ encodeURIComponent query)
           ++ "&" ++ paging)).
Proof.
  cbn zeta. unfold search.projects, search.groups, search.users.
  repeat split; intros Hk; by apply paginated_request_url in Hk.
Qed.

(** X20.  [projects.all] asks for [projects?page=..&per_page=..];
    [projects.search] puts the search string into the endpoint as it is,
    without encoding it, and its paging parameters follow after an "&". *)
Theorem projects_urls (this : GitLabAPI) (searchString : string)
    (options : Options) (answers : list (settled Response)) (k : nat)
    (request : Request) :
  let paging :=
    params_toString
      (pagination_params options (Z.of_nat k + 1) (perPage_of options)) in
  ((projects.all this options answers).(requests) !! k = Some request →
   request.(url) = this.(baseUrl) ++ "/" ++ ("projects" ++ "?" ++ paging))
  ∧ ((projects.search this searchString options answers).(requests) !! k
     = Some request →
     request.(url)
     = this.(baseUrl) ++ "/"
       ++ (("projects?search=" ++ searchString) ++ "&" ++ paging)).
Proof.
  cbn zeta. unfold projects.all, projects.search.
  split; intros Hk; by apply paginated_request_url in Hk.
Qed.

(** X21.  [pipelines.create] always sends a body, the JSON text of
    [{ ref }], also when [ref] is [null] or empty, with method POST and the
    two default headers. *)
Theorem pipelines_create_request (this : GitLabAPI) (projectId : string)
    (ref : value) (fetched : settled Response) :
  (pipelines.create this projectId ref fetched).1.2
  = {| url := this.(baseUrl) ++ "/" ++ ("projects/" ++ projectId ++ "/pipelines");
       fetchOptions :=
         [("method", Str "POST");
          ("headers", Obj [("PRIVATE-TOKEN", Str this.(token));
                           ("Content-Type", Str "application/json")]);
          ("body", Str (stringify (Obj [("ref", ref)])))] |}.
Proof.
  unfold pipelines.create, _request.
  destruct fetched as [r|e]; [|done].
  destruct (ok r); [done|]. by destruct (text r).
Qed.

(** X22.  The single-project operations pass no options, so each of them
    sends exactly its method and the two default headers, PRIVATE-TOKEN with
    the client's token among them; [create], [update] and [fork] add the
    JSON text of a truthy payload as body, [show] and [remove] never send a
    body. *)
Theorem projects_single_requests (this : GitLabAPI) (projectId : string)
    (data : value) (fetched : settled Response) :
  let defaults :=
    ("headers", Obj [("PRIVATE-TOKEN", Str this.(token));
                     ("Content-Type", Str "application/json")]) in
  let body :=
    if truthy data then [("body", Str (stringify data))] else [] in
  (projects.show this projectId fetched).1.2
  = {| url := this.(baseUrl) ++ "/" ++ ("projects/" ++ projectId);
       fetchOptions := [("method", Str "GET"); defaults] |}
  ∧ (projects.remove this projectId fetched).1.2
    = {| url := this.(baseUrl) ++ "/" ++ ("projects/" ++ projectId);
         fetchOptions := [("method", Str "DELETE"); defaults] |}
  ∧ (projects.create this data fetched).1.2
    = {| url := this.(baseUrl) ++ "/" ++ "projects";
         fetchOptions := ([("method", Str "POST"); defaults] ++ body)%list |}
  ∧ (projects.update this projectId data fetched).1.2
    = {| url := this.(baseUrl) ++ "/" ++ ("projects/" ++ projectId);
         fetchOptions := ([("method", Str "PUT"); defaults] ++ body)%list |}
  ∧ (projects.fork this projectId data fetched).1.2
    = {| url := this.(baseUrl) ++ "/" ++ ("projects/" ++ projectId ++ "/fork");
         fetchOptions := ([("method", Str "POST"); defaults] ++ body)%list |}.
Proof.
  cbn zeta.
  unfold projects.show, projects.remove, projects.create, projects.update,
    projects.fork, _request, build_request.
  destruct fetched as [r|e]; [destruct (ok r); [|destruct (text r)]|];
    simpl; destruct (truthy data); by repeat split.
Qed.

(** ** The further properties at concrete inputs *)

Lemma paginate_requests_witness :
  (build_request gitlab "GET" (fullEndpoint "projects" mockOptions 2 2) Null
     mockOptions).(url)
  = gitlab.(baseUrl) ++ "/" ++ fullEndpoint "projects" mockOptions 2 2.
Proof.
  refine (proj1 (proj2 (paginate_requests gitlab "GET" "projects" Null
                          mockOptions mockPages 1
                          (build_request gitlab "GET"
                             (fullEndpoint "projects" mockOptions 2 2) Null
                             mockOptions) _))).
  reflexivity.
Defined.

Lemma paginate_envelope_witness :
  ∃ (pages : list Response) (arrays : list (list value)),
    Forall2 page_of pages arrays
    ∧ concat arrays
      = [Obj [("id", Num 1)]; Obj [("id", Num 2)]; Obj [("id", Num 3)]]
    ∧ known_after "X-Total-Pages" None pages = Some (Int 2).
Proof.
  destruct (paginate_envelope gitlab "GET" "projects" Null mockOptions
              mockPages
              {| CollectionEnvelope.items :=
                   [Obj [("id", Num 1)]; Obj [("id", Num 2)];
                    Obj [("id", Num 3)]];
                 CollectionEnvelope.currentPage := 2;
                 CollectionEnvelope.totalPages := Some (Int 2);
                 CollectionEnvelope.totalItems := None;
                 CollectionEnvelope.headers := Some (headers_of []) |}
              eq_refl)
    as (pages & arrays & _ & Hpages & _ & Hitems & _ & Htotal & _).
  exists pages, arrays. split; [exact Hpages|].
  split; [symmetry; exact Hitems | symmetry; exact Htotal].
Defined.

Lemma paginate_payload_witness :
  ∃ r : Response, ok r = true ∧ read_body r = Obj [("id", Num 1)].
Proof.
  destruct (paginate_payload gitlab "GET" "projects" Null no_options
              [Resolved (json_response [] (Obj [("id", Num 1)]))]
              (Obj [("id", Num 1)]) eq_refl)
    as (pages & arrays & r & _ & _ & Hok & Hbody & _).
  exists r. split; [exact Hok | exact Hbody].
Defined.

Lemma paginate_thrown_witness :
  ∃ (pages : list Response) (arrays : list (list value))
    (fetched : settled Response),
    Forall2 page_of pages arrays
    ∧ take 2 [Resolved (json_response [] (Arr [Num 1; Num 2]));
              Resolved (text_response 429 [] "Too Many Requests")]
      = (map Resolved pages ++ [fetched])%list.
Proof.
  destruct (paginate_thrown gitlab "GET" "projects" Null mockOptions
              [Resolved (json_response [] (Arr [Num 1; Num 2]));
               Resolved (text_response 429 [] "Too Many Requests")]
              (Typed (error_for 429 "Too Many Requests"
                        (gitlab.(baseUrl) ++ "/"
                         ++ fullEndpoint "projects" mockOptions 2 2)))
              eq_refl)
    as (pages & arrays & fetched & Htake & Hpages & _).
  exists pages, arrays, fetched. split; [exact Hpages | exact Htake].
Defined.

(** A first page, then a call that [fetch] rejects: the fields are those of
    the first page. *)
Lemma paginate_rate_limit_witness :
  (_paginatedRequest gitlab "GET" "projects" Null mockOptions
     [Resolved (json_response [("RateLimit-Remaining", "40")]
                  (Arr [Num 1; Num 2]));
      Rejected (Other "read ECONNRESET")]).(client).(rateLimitRemaining)
  = Some "40".
Proof.
  exact (proj1 (paginate_rate_limit gitlab "GET" "projects" Null mockOptions
                  [Resolved (json_response [("RateLimit-Remaining", "40")]
                               (Arr [Num 1; Num 2]));
                   Rejected (Other "read ECONNRESET")])).
Defined.

Lemma paginate_keeps_going_witness :
  let run :=
    _paginatedRequest gitlab "GET" "projects" Null mockOptions
      (map Resolved [json_response [] (Arr [Num 1; Num 2]);
                     json_response [] (Arr [Num 3; Num 4])]) in
  run.(outcome) = Pending ∧ length run.(requests) = 3%nat.
Proof.
  apply (paginate_keeps_going gitlab "GET" "projects" Null mockOptions
           [json_response [] (Arr [Num 1; Num 2]);
            json_response [] (Arr [Num 3; Num 4])]
           [[Num 1; Num 2]; [Num 3; Num 4]]).
  - constructor; [split; [split; reflexivity | by vm_compute]|].
    constructor; [split; [split; reflexivity | by vm_compute]|].
    constructor.
  - reflexivity.
Defined.

Lemma paginate_negative_per_page_witness :
  let run :=
    _paginatedRequest gitlab "GET" "projects" Null
      {| opt_headers := None; opt_per_page := Some (-1); opt_query := None;
         opt_rest := [] |}
      (map Resolved [json_response [] (Arr [])]) in
  run.(outcome) = Pending ∧ length run.(requests) = 2%nat.
Proof.
  apply (paginate_negative_per_page gitlab "GET" "projects" Null
           {| opt_headers := None; opt_per_page := Some (-1);
              opt_query := None; opt_rest := [] |}
           (-1) [json_response [] (Arr [])] [[]]).
  - reflexivity.
  - lia.
  - repeat constructor.
  - repeat constructor.
Defined.

Lemma search_urls_witness :
  (build_request gitlab "GET"
     (fullEndpoint ("search?scope=projects&search="
                    ++ encodeURIComponent "my project") no_options 1 100)
     Null no_options).(url)
  = gitlab.(baseUrl) ++ "/"
    ++ (("search?scope=projects&search=" ++ encodeURIComponent "my project")
        ++ "&" ++ params_toString (pagination_params no_options 1 100)).
Proof.
  refine (proj1 (search_urls gitlab "my project" no_options [] 0
                   (build_request gitlab "GET"
                      (fullEndpoint
                         ("search?scope=projects&search="
                          ++ encodeURIComponent "my project")
                         no_options 1 100)
                      Null no_options)) _).
  reflexivity.
Defined.

Lemma projects_urls_witness :
  (build_request gitlab "GET" (fullEndpoint "projects" mockOptions 1 2) Null
     mockOptions).(url)
  = gitlab.(baseUrl) ++ "/"
    ++ ("projects" ++ "?"
        ++ params_toString (pagination_params mockOptions 1 2)).
Proof.
  refine (proj1 (projects_urls gitlab "" mockOptions mockPages 0
                   (build_request gitlab "GET"
                      (fullEndpoint "projects" mockOptions 1 2) Null
                      mockOptions)) _).
  reflexivity.
Defined.

(** ** The error classes *)

(** X23.  The [name] of the error that [_request] builds for a status tells
    the class and the status apart: it is "GitLabAuthenticationError" exactly
    for 401, "GitLabNotFoundError" exactly for 404, "GitLabRateLimitError"
    exactly for 429 and "GitLabAPIError" exactly for the other statuses; in
    each case the error keeps status, body and URL as they were given. *)
Theorem error_name_by_status (status : Z) (errorText url : string) :
  let error := error_for status errorText url in
  (error.(name) = "GitLabAuthenticationError" ↔ status = 401)
  ∧ (error.(name) = "GitLabNotFoundError" ↔ status = 404)
  ∧ (error.(name) = "GitLabRateLimitError" ↔ status = 429)
  ∧ (error.(name) = "GitLabAPIError" ↔
     status ≠ 401 ∧ status ≠ 404 ∧ status ≠ 429)
  ∧ (error.(class) = GitLabAPIError ↔ error.(name) = "GitLabAPIError")
  ∧ error.(statusCode) = status
  ∧ error.(responseBody) = errorText
  ∧ error.(err_url) = url.
Proof.
  cbn zeta. unfold error_for.
  destruct (Z.eqb_spec status 401) as [->|H1];
    [|destruct (Z.eqb_spec status 404) as [->|H2];
      [|destruct (Z.eqb_spec status 429) as [->|H3]]];
    simpl; repeat split; intros; try done; try lia.
Qed.

Lemma parseInt10_toString_witness :
  parse_header None (Some (toString 2)) = Some (Int 2).
Proof.
  apply (parseInt10_toString 2); lia.
Defined.

Lemma error_name_by_status_witness :
  (error_for 404 "Not Found" "https://gitlab.example.com/api/v4/projects/1"
  ).(name) = "GitLabNotFoundError".
Proof.
  by apply (proj1 (proj2 (error_name_by_status 404 "Not Found"
                            "https://gitlab.example.com/api/v4/projects/1"))).
Defined.
